(** * Verification of the Interiors admin module (admin.py)

  A shallow embedding of [InteriorsAdmin] : the bulk image upload view,
  the image preview column and the session-backed view-mode toggle.

  A Python [str] is modelled by the [string] of its UTF-8 bytes: an ASCII
  character is one byte below 128 and occurs in no other character's
  encoding, so that searching for, splitting at and replacing ASCII
  characters is the same on the bytes. Lengths and indices count bytes.
  [str.title] is written out for strings of ASCII characters; on any other
  string its result comes from Python's Unicode tables, which are a
  parameter of the development. Python integers used as counters are
  [nat]. Dictionaries ([request.GET], the session, the template context) are
  [gmap string _]. *)

From stdpp Require Import base gmap strings list pretty.
From Stdlib Require Import Ascii String.

Open Scope string_scope.

(** ** Python string operations used by the module *)

Module PyStr.

(** [c in s] for a one-character [c]. *)
Fixpoint contains (c : ascii) (s : string) : bool :=
  match s with
  | EmptyString => false
  | String d s' => if decide (d = c) then true else contains c s'
  end.

(** The split of [s] at its last occurrence of [sep], scanning from the
    right as [str.rsplit] does: [None] when [sep] does not occur. *)
Fixpoint rpartition (sep : ascii) (s : string) : option (string * string) :=
  match s with
  | EmptyString => None
  | String c s' =>
      match rpartition sep s' with
      | Some (a, b) => Some (String c a, b)
      | None => if decide (c = sep) then Some (EmptyString, s') else None
      end
  end.

(** [s.rsplit(sep, 1)] for a one-character separator. *)
Definition rsplit1 (sep : ascii) (s : string) : list string :=
  match rpartition sep s with
  | Some (a, b) => [a; b]
  | None => [s]
  end.

(** [s.replace(old, new)] for one-character [old] and [new]. *)
Fixpoint replace (old new : ascii) (s : string) : string :=
  match s with
  | EmptyString => EmptyString
  | String c s' => String (if decide (c = old) then new else c) (replace old new s')
  end.

(** An ASCII character: a byte below 128. *)
Definition is_ascii_char (c : ascii) : bool := (nat_of_ascii c <? 128)%nat.

(** [s.isascii()] *)
Fixpoint is_ascii (s : string) : bool :=
  match s with
  | EmptyString => true
  | String c s' => is_ascii_char c && is_ascii s'
  end.

(** The case tests and mappings below are those of Python on ASCII
    characters; they are applied to strings of ASCII characters only. *)
Definition is_upper (c : ascii) : bool :=
  let n := nat_of_ascii c in ((65 <=? n) && (n <=? 90))%nat.

Definition is_lower (c : ascii) : bool :=
  let n := nat_of_ascii c in ((97 <=? n) && (n <=? 122))%nat.

(** [_PyUnicode_IsCased] of an ASCII character. *)
Definition is_cased (c : ascii) : bool := is_upper c || is_lower c.

Definition to_lower (c : ascii) : ascii :=
  if is_upper c then ascii_of_nat (nat_of_ascii c + 32) else c.

(** The title case of an ASCII character, which is its upper case. *)
Definition to_title (c : ascii) : ascii :=
  if is_lower c then ascii_of_nat (nat_of_ascii c - 32) else c.

(** The loop of [str.title] on a string of ASCII characters: a character
    that follows a cased character is lower-cased, any other character is
    title-cased. *)
Fixpoint title_from (previous_is_cased : bool) (s : string) : string :=
  match s with
  | EmptyString => EmptyString
  | String c s' =>
      String (if previous_is_cased then to_lower c else to_title c)
             (title_from (is_cased c) s')
  end.

(** [s.title()] for a string [s] of ASCII characters. *)
Definition title (s : string) : string := title_from false s.

(** The byte of [s] at index [i], which is [s[i]] when the characters before
    it are ASCII. *)
Definition char_at (s : string) (i : nat) : option ascii := String.get i s.

End PyStr.


(** ** Exceptions and the state-and-error monad *)

(** A raised exception: its class name and [str(e)]. Only classes derived
    from [Exception] are modelled, which is what [except Exception] catches. *)
Record exn := Exn { exn_class : string; exn_str : string }.

(** A computation over a mutable state [S] that returns or raises; the state
    reached is kept in both cases, as nothing is rolled back on a raise. *)
Definition M (S A : Type) : Type := S -> (exn + A) * S.

Global Instance M_ret {S} : MRet (M S) := fun A (a : A) s => (inr a, s).

Global Instance M_bind {S} : MBind (M S) := fun A B (f : A -> M S B) (m : M S A) s =>
  match m s with
  | (inr a, s') => f a s'
  | (inl e, s') => (inl e, s')
  end.

Definition raise {S A} (e : exn) : M S A := fun s => (inl e, s).

Definition lift {S A} (r : exn + A) : M S A := fun s => (r, s).

Definition get_state {S} : M S S := fun s => (inr s, s).

Definition modify {S} (f : S -> S) : M S unit := fun s => (inr tt, f s).

(** [try: m except Exception as e: h e] *)
Definition try_except {S A} (m : M S A) (h : exn -> M S A) : M S A := fun s =>
  match m s with
  | (inr a, s') => (inr a, s')
  | (inl e, s') => h e s'
  end.

(** [for x in l: f x] *)
Fixpoint for_each {S A} (f : A -> M S unit) (l : list A) : M S unit :=
  match l with
  | [] => mret tt
  | x :: rest => f x ;; for_each f rest
  end.

(** Unfolds the monad's operations in the goal and the hypotheses. *)
Ltac unfold_monad :=
  unfold mbind, mret, M_bind, M_ret, lift, modify, get_state, raise, try_except in *.

(** ** Requests, responses and the framework's services *)

(** An uploaded file: [name] may be [None]; the payload is kept as text. *)
Record UploadedFile := { file_name : option string; file_content : string }.

(** The file attribute of a model instance ([obj.image]). *)
Record FieldFile := { ff_name : option string }.

Inductive Level := SUCCESS | ERROR.

Record Message := { level : Level; text : string }.

Record Request := {
  method : string;
  GET : gmap string string;
  FILES : gmap string (list UploadedFile) }.

Inductive Form := BoundForm (request : Request) | UnboundForm.

Inductive Response :=
| Redirect (to : string)
| Render (template : string) (form : Form) (title : string)
| HttpResponse (body : string).

(** What a request handler can change: the persistence store, the queued
    notifications, the session dictionary and standard output. *)
Record World (Store : Type) := {
  db : Store;
  messages : list Message;
  session : gmap string string;
  stdout : list string }.

Arguments db {Store} _.
Arguments messages {Store} _.
Arguments session {Store} _.
Arguments stdout {Store} _.

(** The collaborators the module calls and does not define: the [Interiors]
    model and its store, the file storage, whose [url] returns a URL or
    raises, HTML escaping, form validation, the parent class's
    [changelist_view], and [str.title] on strings that hold a non-ASCII
    character, which maps no string other than the empty one to the empty
    string. *)
Class Framework := {
  Store : Type;
  Interiors : Type;
  Interiors_init : string -> UploadedFile -> exn + Interiors;
  Interiors_name : Interiors -> string;
  Interiors_image : Interiors -> FieldFile;
  Interiors_save : Interiors -> Store -> (exn + unit) * Store;
  storage_url : string -> exn + string;
  conditional_escape : string -> string;
  form_is_valid : Request -> bool;
  super_changelist_view :
    Request -> gmap string string -> World Store -> (exn + Response) * World Store;
  unicode_title : string -> string;
  unicode_title_nonempty : forall s, unicode_title s = "" -> s = "" }.

(** [MultiValueDict.getlist] *)
Definition getlist {A} (key : string) (d : gmap string (list A)) : list A :=
  default [] (d !! key).

(** ** The module: [InteriorsAdmin] *)

Section InteriorsAdmin.
Context `{!Framework}.

(** The local variables of [bulk_upload_view] that live across iterations,
    with the world the handler acts on. [name] is [None] until the first
    assignment to it. *)
Record Frame := {
  interiors_created : nat;
  errors : list string;
  name : option string;
  world : World Store }.

Definition set_name (n : string) (fr : Frame) : Frame :=
  {| interiors_created := interiors_created fr; errors := errors fr;
     name := Some n; world := world fr |}.

Definition incr_created (fr : Frame) : Frame :=
  {| interiors_created := interiors_created fr + 1; errors := errors fr;
     name := name fr; world := world fr |}.

Definition append_error (msg : string) (fr : Frame) : Frame :=
  {| interiors_created := interiors_created fr; errors := errors fr ++ [msg];
     name := name fr; world := world fr |}.

Definition set_world (w : World Store) (fr : Frame) : Frame :=
  {| interiors_created := interiors_created fr; errors := errors fr;
     name := name fr; world := w |}.

Definition set_db (d : Store) (w : World Store) : World Store :=
  {| db := d; messages := messages w; session := session w; stdout := stdout w |}.

Definition add_message (lvl : Level) (msg : string) (w : World Store) : World Store :=
  {| db := db w; messages := messages w ++ [{| level := lvl; text := msg |}];
     session := session w; stdout := stdout w |}.

Definition set_session (key value : string) (w : World Store) : World Store :=
  {| db := db w; messages := messages w;
     session := <[key := value]> (session w); stdout := stdout w |}.

Definition print (line : string) (w : World Store) : World Store :=
  {| db := db w; messages := messages w; session := session w;
     stdout := stdout w ++ [line] |}.

Definition initial_frame (w : World Store) : Frame :=
  {| interiors_created := 0; errors := []; name := None; world := w |}.

(** [image.name.rsplit('.', 1)[0]]: calling [rsplit] on [None] raises
    [AttributeError]; indexing an empty list would raise [IndexError]. *)
Definition stem (image : UploadedFile) : exn + string :=
  match file_name image with
  | None => inl (Exn "AttributeError" "'NoneType' object has no attribute 'rsplit'")
  | Some s =>
      match PyStr.rsplit1 "." s with
      | first :: _ => inr first
      | [] => inl (Exn "IndexError" "list index out of range")
      end
  end.

(** [s.title()] *)
Definition str_title (s : string) : string :=
  if PyStr.is_ascii s then PyStr.title s else unicode_title s.

(** [filename.replace('_', ' ').replace('-', ' ').title()] *)
Definition display_name (filename : string) : string :=
  str_title (PyStr.replace "-" " " (PyStr.replace "_" " " filename)).

(** [interior.save()] *)
Definition save (interior : Interiors) : M Frame unit := fun fr =>
  let '(r, d) := Interiors_save interior (db (world fr)) in
  (r, set_world (set_db d (world fr)) fr).

(** The body of the [try] block; it returns the [interior] it saved. *)
Definition try_body (image : UploadedFile) : M Frame Interiors :=
  filename ← lift (stem image);
  let name := display_name filename in
  modify (set_name name) ;;
  interior ← lift (Interiors_init name image);
  save interior ;;
  modify incr_created ;;
  mret interior.

Definition error_message (n : string) (e : exn) : string :=
  "Error creating interior '" ++ n ++ "': " ++ exn_str e.

(** The [except Exception as e] clause: reading [name] before any
    assignment to it raises [UnboundLocalError]. *)
Definition except_clause (e : exn) : M Frame unit :=
  fr ← get_state;
  match name fr with
  | Some n => modify (append_error (error_message n e))
  | None =>
      raise (Exn "UnboundLocalError"
        "cannot access local variable 'name' where it is not associated with a value")
  end.

(** One iteration of [for image in images]. *)
Definition loop_body (image : UploadedFile) : M Frame unit :=
  try_except (try_body image ;; mret tt) except_clause.

Definition import_images (images : list UploadedFile) : M Frame unit :=
  for_each loop_body images.

Definition messages_success (msg : string) : M Frame unit :=
  modify (fun fr => set_world (add_message SUCCESS msg (world fr)) fr).

Definition messages_error (msg : string) : M Frame unit :=
  modify (fun fr => set_world (add_message ERROR msg (world fr)) fr).

Definition success_text (n : nat) : string :=
  "Successfully created " ++ pretty n ++ " interiors.".

(** The branch of [bulk_upload_view] taken by a valid POST. *)
Definition upload_valid (images : list UploadedFile) : M Frame Response :=
  import_images images ;;
  fr ← get_state;
  (if (0 <? interiors_created fr)%nat
   then messages_success (success_text (interiors_created fr))
   else mret tt) ;;
  for_each messages_error (errors fr) ;;
  mret (Redirect "admin:interiors_interiors_changelist").

Definition upload_template : string := "admin/interiors/bulk_upload.html".

Definition bulk_upload_view (request : Request) : M (World Store) Response := fun w =>
  if decide (method request = "POST") then
    if form_is_valid request then
      let images := getlist "images" (FILES request) in
      let '(r, fr) := upload_valid images (initial_frame w) in
      (r, world fr)
    else (inr (Render upload_template (BoundForm request) "Bulk Upload Images"), w)
  else (inr (Render upload_template UnboundForm "Bulk Upload Images"), w).

(** [bool(obj.image)]: a [FieldFile] is true when its name is. *)
Definition FieldFile_bool (f : FieldFile) : bool :=
  match ff_name f with
  | Some s => negb (String.eqb s "")
  | None => false
  end.

(** [FieldFile.url]: requires a file, then asks the storage, which returns
    the URL or raises. *)
Definition FieldFile_url (f : FieldFile) : exn + string :=
  match ff_name f with
  | Some s =>
      if String.eqb s ""
      then inl (Exn "ValueError" "The 'image' attribute has no file associated with it.")
      else storage_url s
  | None => inl (Exn "ValueError" "The 'image' attribute has no file associated with it.")
  end.

Definition dquote : string := String (ascii_of_nat 34) EmptyString.

Definition img_prefix : string := "<img src=" ++ dquote.

Definition img_suffix : string :=
  dquote ++ " style=" ++ dquote
  ++ "max-width: 100px; max-height: 100px; border-radius:5px;" ++ dquote ++ " />".

(** [format_html(template, arg)] for the one-placeholder template of
    [image_preview]: the argument is escaped, then spliced in. *)
Definition format_img (arg : string) : string :=
  img_prefix ++ conditional_escape arg ++ img_suffix.

Definition image_preview (obj : Interiors) : exn + string :=
  if FieldFile_bool (Interiors_image obj) then
    match FieldFile_url (Interiors_image obj) with
    | inr url => inr (format_img url)
    | inl e => inl e
    end
  else inr "No Image".

(** [changelist_view]: [extra_context] is [None] or a dictionary. *)
Definition changelist_view (request : Request) (extra_context : option (gmap string string))
  : M (World Store) Response :=
  let extra_context := default ∅ extra_context in
  view_mode ← (match GET request !! "view" with
               | Some v => modify (set_session "view_mode" v) ;; mret v
               | None =>
                   w ← get_state;
                   mret (default "list" (session w !! "view_mode"))
               end);
  modify (print ("View mode: " ++ view_mode)) ;;
  super_changelist_view request (<["view_mode" := view_mode]> extra_context).

(** *** Notions used to state the properties *)

(** A run of the loop over a batch in which no [try] block raised. *)
Inductive all_succeed : list UploadedFile -> Frame -> Frame -> Prop :=
| all_succeed_nil fr : all_succeed [] fr fr
| all_succeed_cons image rest fr interior fr1 fr2 :
    try_body image fr = (inr interior, fr1) ->
    all_succeed rest fr1 fr2 ->
    all_succeed (image :: rest) fr fr2.

(** The display name computed last among the files of a batch, if any file
    of the batch got as far as computing one. *)
Definition last_display_name (images : list UploadedFile) : option string :=
  fold_left (fun acc image =>
               match stem image with
               | inr filename => Some (display_name filename)
               | inl _ => acc
               end) images None.

(** The notifications queued after the loop, from its final locals. *)
Definition notifications (fr : Frame) : list Message :=
  (if (0 <? interiors_created fr)%nat
   then [{| level := SUCCESS; text := success_text (interiors_created fr) |}]
   else [])
  ++ map (fun msg => {| level := ERROR; text := msg |}) (errors fr).

(** The parent's [changelist_view] leaves the session's view mode alone. *)
Definition super_keeps_view_mode : Prop :=
  forall request context w,
    session (super_changelist_view request context w).2 !! "view_mode"
    = session w !! "view_mode".

(** Constructing a model instance stores the [name] keyword argument. *)
Definition init_stores_name : Prop :=
  forall n image interior,
    Interiors_init n image = inr interior -> Interiors_name interior = n.

End InteriorsAdmin.

(** ** An in-memory instance of the framework *)

Module Memory.

Record Row := { row_name : string; row_image : UploadedFile }.

(** Saving appends a row; an empty payload is refused. *)
Definition save_row (r : Row) (rows : list Row) : (exn + unit) * list Row :=
  if String.eqb (file_content (row_image r)) ""
  then (inl (Exn "ValueError" "The submitted file is empty."), rows)
  else (inr tt, (rows ++ [r])%list).

(** Form validation is switched off in this instance, so that every branch
    of the loop can be run; text with a non-ASCII character is left as it is
    by [unicode_title], the names used below being ASCII. *)
Definition framework : Framework := {|
  Store := list Row;
  Interiors := Row;
  Interiors_init n image := inr {| row_name := n; row_image := image |};
  Interiors_name := row_name;
  Interiors_image r := {| ff_name := file_name (row_image r) |};
  Interiors_save := save_row;
  storage_url s := inr ("/media/" ++ s);
  conditional_escape s := s;
  form_is_valid _ := true;
  super_changelist_view _ context w :=
    (inr (HttpResponse (default "" (context !! "view_mode"))), w);
  unicode_title s := s;
  unicode_title_nonempty s H := H |}.

(** The same with a file storage that serves no URL, as a
    [FileSystemStorage] whose base URL is [None]. *)
Definition framework_without_urls : Framework := {|
  Store := list Row;
  Interiors := Row;
  Interiors_init n image := inr {| row_name := n; row_image := image |};
  Interiors_name := row_name;
  Interiors_image r := {| ff_name := file_name (row_image r) |};
  Interiors_save := save_row;
  storage_url _ := inl (Exn "ValueError" "This file is not accessible via a URL.");
  conditional_escape s := s;
  form_is_valid _ := true;
  super_changelist_view _ context w :=
    (inr (HttpResponse (default "" (context !! "view_mode"))), w);
  unicode_title s := s;
  unicode_title_nonempty s H := H |}.

Definition world0 : World (list Row) :=
  {| db := []; messages := []; session := ∅; stdout := [] |}.

Definition frame0 : @Frame framework := @initial_frame framework world0.

Definition sofa : UploadedFile :=
  {| file_name := Some "SOFA.png"; file_content := "png" |}.

Definition living_room : UploadedFile :=
  {| file_name := Some "modern_living-room.jpg"; file_content := "jpg" |}.

Definition empty_payload : UploadedFile :=
  {| file_name := Some "lamp.gif"; file_content := "" |}.

Definition nameless : UploadedFile :=
  {| file_name := None; file_content := "raw" |}.

Definition dotfile : UploadedFile :=
  {| file_name := Some ".jpg"; file_content := "jpg" |}.

Definition request (m : string) (query : gmap string string)
    (files : gmap string (list UploadedFile)) : Request :=
  {| method := m; GET := query; FILES := files |}.

End Memory.

(** ** Further notions *)

(** [s.lower()] for a string [s] of ASCII characters; used to compare
    filenames up to case. *)
Fixpoint lower (s : string) : string :=
  match s with
  | EmptyString => EmptyString
  | String c s' => String (PyStr.to_lower c) (lower s')
  end.

(** ** The multiple-file form field *)

Section MultipleFileField.
Variables Data Initial Cleaned : Type.

(** [super().clean], the cleaning of one datum by [forms.FileField]; it
    returns the cleaned value or raises [ValidationError]. *)
Variable single_file_clean : Data -> Initial -> exn + Cleaned.

(** What the widget hands to [clean]: a list or tuple of data, or one datum. *)
Inductive FieldData :=
| DataSeq (items : list Data)
| DataSingle (item : Data).

(** What [clean] returns: a list of cleaned values, or one cleaned value. *)
Inductive CleanedData :=
| CleanedSeq (items : list Cleaned)
| CleanedSingle (item : Cleaned).

(** [[single_file_clean(d, initial) for d in data]]: the elements are cleaned
    from left to right and the first exception ends the comprehension. *)
Fixpoint clean_each (data : list Data) (initial : Initial) : exn + list Cleaned :=
  match data with
  | [] => inr []
  | d :: rest =>
      match single_file_clean d initial with
      | inl e => inl e
      | inr c =>
          match clean_each rest initial with
          | inl e => inl e
          | inr cs => inr (c :: cs)
          end
      end
  end.

(** [MultipleFileField.clean] *)
Definition clean (data : FieldData) (initial : Initial) : exn + CleanedData :=
  match data with
  | DataSeq items =>
      match clean_each items initial with
      | inl e => inl e
      | inr result => inr (CleanedSeq result)
      end
  | DataSingle item =>
      match single_file_clean item initial with
      | inl e => inl e
      | inr result => inr (CleanedSingle result)
      end
  end.

End MultipleFileField.

Arguments DataSeq {Data} _.
Arguments DataSingle {Data} _.
Arguments CleanedSeq {Cleaned} _.
Arguments CleanedSingle {Cleaned} _.
Arguments clean_each {Data Initial Cleaned} _ _ _.
Arguments clean {Data Initial Cleaned} _ _ _.

(** ** Reference descriptions of the upload loop *)

Section Reference.
Context `{!Framework}.

(** The store reached by saving, in file order, the record of every file
    whose name could be derived and whose record could be constructed. *)
Definition saved_in_order (images : list UploadedFile) (d : Store) : Store :=
  fold_left (fun d image =>
               match stem image with
               | inr filename =>
                   match Interiors_init (display_name filename) image with
                   | inr interior => (Interiors_save interior d).2
                   | inl _ => d
                   end
               | inl _ => d
               end) images d.

(** [n] is the display name of some file of [images]. *)
Definition names_file (images : list UploadedFile) (n : string) : Prop :=
  exists image filename,
    In image images /\ stem image = inr filename /\ n = display_name filename.

End Reference.

(** A validator that refuses every datum, as a required field does for a
    missing file. *)
Definition refuse_all (d : option UploadedFile) (initial : unit)
  : exn + UploadedFile :=
  inl (Exn "ValidationError" "This field is required.").

(** A validator that accepts a present file with a non-empty payload. *)
Definition accept_payload (d : option UploadedFile) (initial : unit)
  : exn + UploadedFile :=
  match d with
  | None => inl (Exn "ValidationError" "This field is required.")
  | Some f =>
      if String.eqb (file_content f) ""
      then inl (Exn "ValidationError" "The submitted file is empty.")
      else inr f
  end.

(** * Properties *)

(** ** Strings *)

Example title_living : PyStr.title "modern living room" = "Modern Living Room".
Proof. reflexivity. Qed.

Example title_apostrophe : PyStr.title "they're 3d" = "They'Re 3D".
Proof. reflexivity. Qed.

Example rsplit1_two_dots : PyStr.rsplit1 "." "a.tar.gz" = ["a.tar"; "gz"].
Proof. reflexivity. Qed.

Example rsplit1_no_dot : PyStr.rsplit1 "." "README" = ["README"].
Proof. reflexivity. Qed.

Lemma rpartition_Some sep s a b :
  PyStr.rpartition sep s = Some (a, b) ->
  s = a ++ String sep b /\ PyStr.contains sep b = false.
Proof.
  revert a b. induction s as [|c s IH]; intros a b Hs; simpl in Hs.
  - discriminate.
  - destruct (PyStr.rpartition sep s) as [[a' b']|] eqn:Hr.
    + injection Hs as <- <-. destruct (IH a' b' eq_refl) as [-> Hb].
      split; [reflexivity | exact Hb].
    + destruct (decide (c = sep)) as [->|Hne]; [|discriminate].
      injection Hs as <- <-. split; [reflexivity|].
      clear IH. induction s as [|d s IHs]; simpl in *; [reflexivity|].
      destruct (PyStr.rpartition sep s) as [[? ?]|]; [discriminate|].
      destruct (decide (d = sep)); [discriminate|]. apply IHs. reflexivity.
Qed.

Lemma rpartition_None sep s :
  PyStr.rpartition sep s = None <-> PyStr.contains sep s = false.
Proof.
  induction s as [|c s IH]; simpl; [tauto|].
  destruct (PyStr.rpartition sep s) as [[a b]|].
  - destruct (decide (c = sep)); split; try discriminate.
    intros Hc. apply IH in Hc. discriminate.
  - destruct (decide (c = sep)); split; try discriminate; intros _; [|reflexivity].
    apply IH. reflexivity.
Qed.

Lemma rsplit1_found sep s :
  PyStr.contains sep s = true ->
  exists a b, s = a ++ String sep b /\ PyStr.contains sep b = false
              /\ PyStr.rsplit1 sep s = [a; b].
Proof.
  intros Hc. unfold PyStr.rsplit1.
  destruct (PyStr.rpartition sep s) as [[a b]|] eqn:Hr.
  - exists a, b. destruct (rpartition_Some _ _ _ _ Hr). auto.
  - apply rpartition_None in Hr. congruence.
Qed.

Lemma rsplit1_missing sep s :
  PyStr.contains sep s = false -> PyStr.rsplit1 sep s = [s].
Proof.
  intros Hc. unfold PyStr.rsplit1. apply rpartition_None in Hc. rewrite Hc. reflexivity.
Qed.

Lemma replace_length old new s :
  String.length (PyStr.replace old new s) = String.length s.
Proof. induction s; simpl; congruence. Qed.

Lemma title_from_length b s : String.length (PyStr.title_from b s) = String.length s.
Proof. revert b. induction s; intros b; simpl; congruence. Qed.

Lemma char_at_replace old new s i :
  PyStr.char_at (PyStr.replace old new s) i
  = (fun c => if decide (c = old) then new else c) <$> PyStr.char_at s i.
Proof.
  unfold PyStr.char_at. revert i. induction s as [|c s IH]; intros i; simpl.
  - reflexivity.
  - destruct i; [reflexivity | apply IH].
Qed.

Lemma char_at_title_from b s i :
  PyStr.char_at s i = Some " "%char ->
  PyStr.char_at (PyStr.title_from b s) i = Some " "%char.
Proof.
  unfold PyStr.char_at. revert b i. induction s as [|c s IH]; intros b i; simpl.
  - discriminate.
  - destruct i.
    + intros [= ->]. destruct b; reflexivity.
    + apply IH.
Qed.

Lemma to_title_not c d :
  PyStr.is_cased d = false -> c <> d -> PyStr.to_title c <> d /\ PyStr.to_lower c <> d.
Proof.
  intros Hd Hne. unfold PyStr.to_title, PyStr.to_lower. split.
  - destruct (PyStr.is_lower c) eqn:Hl; [|exact Hne].
    intros <-. revert Hl Hd. clear.
    destruct c as [[] [] [] [] [] [] [] []]; vm_compute; congruence.
  - destruct (PyStr.is_upper c) eqn:Hu; [|exact Hne].
    intros <-. revert Hu Hd. clear.
    destruct c as [[] [] [] [] [] [] [] []]; vm_compute; congruence.
Qed.

Lemma contains_title_from b d s :
  PyStr.is_cased d = false ->
  PyStr.contains d s = false -> PyStr.contains d (PyStr.title_from b s) = false.
Proof.
  intros Hd. revert b. induction s as [|c s IH]; intros b; simpl; [reflexivity|].
  destruct (decide (c = d)) as [|Hne]; [discriminate|]. intros Hs.
  destruct (to_title_not c d Hd Hne) as [Ht Hl].
  destruct b; (destruct (decide _) as [Heq|_]; [contradiction|]); apply IH, Hs.
Qed.

Lemma contains_replace_old old new s :
  old <> new -> PyStr.contains old (PyStr.replace old new s) = false.
Proof.
  intros Hne. induction s as [|c s IH]; simpl; [reflexivity|].
  destruct (decide (c = old)) as [->|Hc].
  - destruct (decide (new = old)); [congruence | exact IH].
  - destruct (decide (c = old)); [contradiction | exact IH].
Qed.

Lemma contains_replace_other d old new s :
  d <> new -> PyStr.contains d s = false ->
  PyStr.contains d (PyStr.replace old new s) = false.
Proof.
  intros Hne. induction s as [|c s IH]; simpl; [reflexivity|].
  destruct (decide (c = d)) as [|Hc]; [discriminate|]. intros Hs.
  destruct (decide (c = old)).
  - destruct (decide (new = d)); [congruence | apply IH, Hs].
  - destruct (decide (c = d)); [contradiction | apply IH, Hs].
Qed.

(** ** The bulk upload loop *)

Section Loop.
Context `{!Framework}.

Lemma stem_some image s :
  file_name image = Some s ->
  exists filename, stem image = inr filename
                   /\ hd_error (PyStr.rsplit1 "." s) = Some filename.
Proof.
  intros Hs. unfold stem. rewrite Hs. unfold PyStr.rsplit1.
  destruct (PyStr.rpartition "." s) as [[a b]|]; eauto.
Qed.

Lemma stem_none image :
  file_name image = None ->
  stem image = inl (Exn "AttributeError" "'NoneType' object has no attribute 'rsplit'").
Proof. intros Hs. unfold stem. rewrite Hs. reflexivity. Qed.

Lemma stem_inr image filename :
  stem image = inr filename -> exists s, file_name image = Some s.
Proof. unfold stem. destruct (file_name image); [eauto | discriminate]. Qed.

(** What a [try] block leaves behind, whether it returns or raises. *)
Lemma try_body_effect image fr r fr1 :
  try_body image fr = (r, fr1) ->
  errors fr1 = errors fr
  /\ messages (world fr1) = messages (world fr)
  /\ name fr1 = match stem image with
                | inr filename => Some (display_name filename)
                | inl _ => name fr
                end
  /\ interiors_created fr1
     = interiors_created fr + (if r is inr _ then 1 else 0).
Proof.
  unfold try_body, save. unfold_monad.
  destruct (stem image) as [e|filename]; simpl.
  - intros [= <- <-]. rewrite Nat.add_0_r. auto.
  - destruct (Interiors_init (display_name filename) image) as [e|interior]; simpl.
    + intros [= <- <-]. simpl. rewrite Nat.add_0_r. auto.
    + destruct (Interiors_save interior (db (world fr))) as [[e|[]] d]; simpl;
        intros [= <- <-]; simpl; rewrite ?Nat.add_0_r; auto.
Qed.

(** A [try] block that returns has built its record from the display name. *)
Lemma try_body_returns image fr interior fr1 :
  try_body image fr = (inr interior, fr1) ->
  exists filename,
    stem image = inr filename
    /\ Interiors_init (display_name filename) image = inr interior.
Proof.
  unfold try_body, save. unfold_monad.
  destruct (stem image) as [e|filename]; simpl; [discriminate|].
  destruct (Interiors_init (display_name filename) image) as [e|i] eqn:Hi; simpl;
    [discriminate|].
  destruct (Interiors_save i (db (world fr))) as [[e|[]] d]; simpl; [discriminate|].
  intros [= <- <-]. eauto.
Qed.

Lemma try_body_stem_raises image fr e :
  stem image = inl e -> try_body image fr = (inl e, fr).
Proof. intros He. unfold try_body. unfold_monad. rewrite He. reflexivity. Qed.

Lemma loop_body_returned image fr interior fr1 :
  try_body image fr = (inr interior, fr1) -> loop_body image fr = (inr tt, fr1).
Proof. intros Ht. unfold loop_body. unfold_monad. rewrite Ht. reflexivity. Qed.

Lemma loop_body_caught image fr e fr1 n :
  try_body image fr = (inl e, fr1) -> name fr1 = Some n ->
  loop_body image fr = (inr tt, append_error (error_message n e) fr1).
Proof.
  intros Ht Hn. unfold loop_body, except_clause. unfold_monad.
  rewrite Ht. simpl. rewrite Hn. reflexivity.
Qed.

Lemma loop_body_escapes image fr e fr1 :
  try_body image fr = (inl e, fr1) -> name fr1 = None ->
  exists e', loop_body image fr = (inl e', fr1) /\ exn_class e' = "UnboundLocalError".
Proof.
  intros Ht Hn. unfold loop_body, except_clause. unfold_monad.
  rewrite Ht. simpl. rewrite Hn. eauto.
Qed.

(** Each iteration that completes adds one success or one error message. *)
Lemma loop_body_step image fr fr1 :
  loop_body image fr = (inr tt, fr1) ->
  (interiors_created fr1 = interiors_created fr + 1 /\ errors fr1 = errors fr)
  \/ (interiors_created fr1 = interiors_created fr
      /\ exists msg, errors fr1 = (errors fr ++ [msg])%list).
Proof.
  destruct (try_body image fr) as [[e|interior] fr'] eqn:Ht.
  - destruct (try_body_effect _ _ _ _ Ht) as (He & _ & _ & Hc).
    destruct (name fr') as [n|] eqn:Hn.
    + rewrite (loop_body_caught _ _ _ _ _ Ht Hn). intros [= <-]. right. simpl.
      rewrite Hc, He, Nat.add_0_r. eauto.
    + destruct (loop_body_escapes _ _ _ _ Ht Hn) as (e' & -> & _). discriminate.
  - destruct (try_body_effect _ _ _ _ Ht) as (He & _ & _ & Hc).
    rewrite (loop_body_returned _ _ _ _ Ht). intros [= <-]. left. auto.
Qed.

Lemma loop_body_name image fr r fr1 :
  loop_body image fr = (r, fr1) ->
  name fr1 = match stem image with
             | inr filename => Some (display_name filename)
             | inl _ => name fr
             end.
Proof.
  destruct (try_body image fr) as [[e|interior] fr'] eqn:Ht;
    destruct (try_body_effect _ _ _ _ Ht) as (_ & _ & Hn & _).
  - destruct (name fr') as [n|] eqn:Hn'.
    + rewrite (loop_body_caught _ _ _ _ _ Ht Hn'). intros [= <- <-]. simpl. congruence.
    + destruct (loop_body_escapes _ _ _ _ Ht Hn') as (e' & -> & _).
      intros [= <- <-]. congruence.
  - rewrite (loop_body_returned _ _ _ _ Ht). intros [= <- <-]. exact Hn.
Qed.

Lemma for_each_app {S A} (f : A -> M S unit) l1 l2 s :
  for_each f (l1 ++ l2) s
  = match for_each f l1 s with
    | (inr _, s1) => for_each f l2 s1
    | (inl e, s1) => (inl e, s1)
    end.
Proof.
  revert s. induction l1 as [|x l1 IH]; intros s; simpl.
  - reflexivity.
  - unfold_monad. destruct (f x s) as [[e|[]] s1]; [reflexivity | apply IH].
Qed.

Lemma for_each_cons {S A} (f : A -> M S unit) x l s :
  for_each f (x :: l) s
  = match f x s with
    | (inr _, s1) => for_each f l s1
    | (inl e, s1) => (inl e, s1)
    end.
Proof. simpl. unfold_monad. destruct (f x s) as [[e|[]] s1]; reflexivity. Qed.

Lemma all_succeed_import images fr fr1 :
  all_succeed images fr fr1 ->
  import_images images fr = (inr tt, fr1)
  /\ interiors_created fr1 = interiors_created fr + List.length images
  /\ errors fr1 = errors fr.
Proof.
  unfold import_images. induction 1 as [fr|image rest fr interior fr1 fr2 Ht _ IH].
  - simpl. rewrite Nat.add_0_r. auto.
  - rewrite for_each_cons, (loop_body_returned _ _ _ _ Ht).
    destruct IH as (-> & Hc & He).
    destruct (try_body_effect _ _ _ _ Ht) as (He1 & _ & _ & Hc1).
    simpl. split; [reflexivity|]. split; [lia | congruence].
Qed.

Lemma import_counts images fr fr1 :
  import_images images fr = (inr tt, fr1) ->
  interiors_created fr1 + List.length (errors fr1)
  = interiors_created fr + List.length (errors fr) + List.length images.
Proof.
  unfold import_images. revert fr. induction images as [|image rest IH]; intros fr.
  - simpl. unfold_monad. intros [= <-]. lia.
  - rewrite for_each_cons.
    destruct (loop_body image fr) as [[e|[]] fr'] eqn:Hb; [discriminate|].
    intros Hrest. apply IH in Hrest.
    destruct (loop_body_step _ _ _ Hb) as [[Hc He]|[Hc [msg He]]].
    + rewrite Hc, He in Hrest. simpl. lia.
    + rewrite Hc, He, List.length_app in Hrest. simpl in *. lia.
Qed.

End Loop.

(** ** Display names *)

Lemma ascii_range_kept c :
  PyStr.is_ascii_char (PyStr.to_title c) = PyStr.is_ascii_char c
  /\ PyStr.is_ascii_char (PyStr.to_lower c) = PyStr.is_ascii_char c.
Proof. destruct c as [[] [] [] [] [] [] [] []]; vm_compute; split; reflexivity. Qed.

Lemma is_ascii_title_from b s :
  PyStr.is_ascii (PyStr.title_from b s) = PyStr.is_ascii s.
Proof.
  revert b. induction s as [|c s IH]; intros b; simpl; [reflexivity|].
  destruct (ascii_range_kept c) as [Ht Hl]. rewrite IH.
  destruct b; [rewrite Hl | rewrite Ht]; reflexivity.
Qed.

Lemma is_ascii_replace old new s :
  PyStr.is_ascii_char old = true -> PyStr.is_ascii_char new = true ->
  PyStr.is_ascii (PyStr.replace old new s) = PyStr.is_ascii s.
Proof.
  intros Hold Hnew. induction s as [|c s IH]; simpl; [reflexivity|].
  rewrite IH. destruct (decide (c = old)) as [->|_]; [|reflexivity].
  rewrite Hold, Hnew. reflexivity.
Qed.

Section Naming.
Context `{!Framework}.

(** On a stem of ASCII characters the display name is given by the ASCII
    loop of [str.title]. *)
Lemma display_name_ascii filename :
  PyStr.is_ascii filename = true ->
  display_name filename
  = PyStr.title (PyStr.replace "-" " " (PyStr.replace "_" " " filename))
  /\ PyStr.is_ascii (display_name filename) = true.
Proof.
  intros Hascii. unfold display_name, str_title.
  rewrite !is_ascii_replace, Hascii by reflexivity.
  split; [reflexivity|]. unfold PyStr.title.
  rewrite is_ascii_title_from, !is_ascii_replace by reflexivity. exact Hascii.
Qed.

Lemma display_name_empty filename : display_name filename = "" <-> filename = "".
Proof.
  split.
  - unfold display_name, str_title. intros Hempty.
    assert (Hspaced : PyStr.replace "-" " " (PyStr.replace "_" " " filename) = "").
    { destruct (PyStr.is_ascii _).
      - apply (f_equal String.length) in Hempty. unfold PyStr.title in Hempty.
        rewrite title_from_length in Hempty.
        destruct (PyStr.replace "-" " " _); [reflexivity | discriminate].
      - apply unicode_title_nonempty, Hempty. }
    apply (f_equal String.length) in Hspaced. rewrite !replace_length in Hspaced.
    destruct filename; [reflexivity | discriminate].
  - intros ->. reflexivity.
Qed.

(** C1: for a filename with at least one '.', the display name is computed
    from the part of the filename before its last '.' (the part after it
    holds no '.'); for a filename with no '.', it is computed from the whole
    filename. In both cases the loop binds [name] to that display name. *)
Theorem display_name_strips_last_extension image s fr :
  file_name image = Some s ->
  (PyStr.contains "." s = true ->
   exists base ext,
     s = base ++ "." ++ ext /\ PyStr.contains "." ext = false
     /\ stem image = inr base
     /\ name (loop_body image fr).2 = Some (display_name base))
  /\ (PyStr.contains "." s = false ->
      stem image = inr s
      /\ name (loop_body image fr).2 = Some (display_name s)).
Proof.
  intros Hs. split; intros Hdot.
  - destruct (rsplit1_found _ _ Hdot) as (base & ext & Heq & Hext & Hsplit).
    exists base, ext. assert (Hstem : stem image = inr base).
    { unfold stem. rewrite Hs, Hsplit. reflexivity. }
    repeat split; try assumption.
    rewrite (loop_body_name image fr _ _ (surjective_pairing _)), Hstem. reflexivity.
  - assert (Hstem : stem image = inr s).
    { unfold stem. rewrite Hs, (rsplit1_missing _ _ Hdot). reflexivity. }
    split; [assumption|].
    rewrite (loop_body_name image fr _ _ (surjective_pairing _)), Hstem. reflexivity.
Qed.

(** C2: for every file with a stem, the loop binds [name] to the result of
    [str.title] on the stem in which every '_' and every '-' has become a
    space, whatever its position: that string has the length of the stem, a
    space wherever the stem has '_' or '-', the stem's own character
    everywhere else, and no '_' or '-' left. When the stem is ASCII the
    display name itself has the length of the stem, a space wherever the
    stem has '_' or '-', and no '_' or '-'. 'modern_living-room.jpg' gives
    'Modern Living Room' and 'SOFA.png' gives 'Sofa'. *)
Theorem display_name_spaces_then_title :
  (forall image filename fr,
     stem image = inr filename ->
     name (loop_body image fr).2
     = Some (str_title (PyStr.replace "-" " " (PyStr.replace "_" " " filename)))
     /\ String.length (PyStr.replace "-" " " (PyStr.replace "_" " " filename))
        = String.length filename
     /\ (forall i c,
           PyStr.char_at filename i = Some c ->
           PyStr.char_at (PyStr.replace "-" " " (PyStr.replace "_" " " filename)) i
           = Some (if decide (c = "_"%char \/ c = "-"%char) then " "%char else c))
     /\ PyStr.contains "_" (PyStr.replace "-" " " (PyStr.replace "_" " " filename))
        = false
     /\ PyStr.contains "-" (PyStr.replace "-" " " (PyStr.replace "_" " " filename))
        = false
     /\ (PyStr.is_ascii filename = true ->
         String.length (display_name filename) = String.length filename
         /\ (forall i c,
               PyStr.char_at filename i = Some c ->
               c = "_"%char \/ c = "-"%char ->
               PyStr.char_at (display_name filename) i = Some " "%char)
         /\ PyStr.contains "_" (display_name filename) = false
         /\ PyStr.contains "-" (display_name filename) = false))
  /\ (forall content fr,
        name (loop_body {| file_name := Some "modern_living-room.jpg";
                           file_content := content |} fr).2
        = Some "Modern Living Room")
  /\ (forall content fr,
        name (loop_body {| file_name := Some "SOFA.png";
                           file_content := content |} fr).2
        = Some "Sofa").
Proof.
  split; [|split].
  - intros image filename fr Hstem.
    assert (Hunder : PyStr.contains "_"
                       (PyStr.replace "-" " " (PyStr.replace "_" " " filename)) = false).
    { apply contains_replace_other; [discriminate|].
      apply contains_replace_old. discriminate. }
    assert (Hhyphen : PyStr.contains "-"
                        (PyStr.replace "-" " " (PyStr.replace "_" " " filename)) = false).
    { apply contains_replace_old. discriminate. }
    split.
    { rewrite (loop_body_name image fr _ _ (surjective_pairing _)), Hstem. reflexivity. }
    split; [by rewrite !replace_length|].
    split.
    { intros i c Hc. rewrite !char_at_replace, Hc. simpl. f_equal.
      destruct (decide (c = "_"%char)) as [->|Hu].
      - reflexivity.
      - destruct (decide (c = "-"%char)) as [->|Hh]; [reflexivity|].
        destruct (decide (c = "_"%char \/ c = "-"%char)) as [[?|?]|_];
          [contradiction | contradiction | reflexivity]. }
    split; [exact Hunder|]. split; [exact Hhyphen|].
    intros Hascii. destruct (display_name_ascii filename Hascii) as [-> _].
    unfold PyStr.title.
    split; [by rewrite title_from_length, !replace_length|].
    split; [|split].
    + intros i c Hc Hsep. apply char_at_title_from.
      rewrite !char_at_replace, Hc. simpl.
      destruct Hsep as [-> | ->]; reflexivity.
    + apply contains_title_from; [reflexivity | exact Hunder].
    + apply contains_title_from; [reflexivity | exact Hhyphen].
  - intros content fr.
    rewrite (loop_body_name _ fr _ _ (surjective_pairing _)). reflexivity.
  - intros content fr.
    rewrite (loop_body_name _ fr _ _ (surjective_pairing _)). reflexivity.
Qed.

End Naming.

Lemma display_name_strips_last_extension_witness :
  file_name Memory.living_room = Some "modern_living-room.jpg"
  /\ PyStr.contains "." "modern_living-room.jpg" = true
  /\ exists base ext,
       "modern_living-room.jpg" = base ++ "." ++ ext
       /\ PyStr.contains "." ext = false
       /\ stem Memory.living_room = inr base
       /\ name (loop_body (H := Memory.framework) Memory.living_room Memory.frame0).2
          = Some (display_name (H := Memory.framework) base).
Proof.
  split; [reflexivity|]. split; [reflexivity|].
  apply (display_name_strips_last_extension (H := Memory.framework)
           Memory.living_room "modern_living-room.jpg"
           Memory.frame0); reflexivity.
Defined.

Lemma display_name_spaces_then_title_witness :
  stem Memory.living_room = inr "modern_living-room"
  /\ PyStr.is_ascii "modern_living-room" = true
  /\ PyStr.char_at "modern_living-room" 6 = Some "_"%char
  /\ PyStr.char_at (PyStr.replace "-" " " (PyStr.replace "_" " " "modern_living-room")) 6
     = Some " "%char
  /\ PyStr.char_at (display_name (H := Memory.framework) "modern_living-room") 6
     = Some " "%char.
Proof.
  split; [reflexivity|]. split; [reflexivity|]. split; [reflexivity|].
  destruct (proj1 (display_name_spaces_then_title (H := Memory.framework))
              Memory.living_room "modern_living-room" Memory.frame0 eq_refl)
    as (_ & _ & Hspaced & _ & _ & Hascii).
  split.
  - exact (Hspaced 6 "_"%char eq_refl).
  - destruct (Hascii eq_refl) as (_ & Hspace & _).
    exact (Hspace 6 "_"%char eq_refl (or_introl eq_refl)).
Defined.

(** ** Batches *)

Section Batch.
Context `{!Framework}.

Lemma import_name images fr fr1 acc :
  import_images images fr = (inr tt, fr1) ->
  name fr = acc ->
  name fr1
  = fold_left (fun acc image =>
                 match stem image with
                 | inr filename => Some (display_name filename)
                 | inl _ => acc
                 end) images acc.
Proof.
  unfold import_images. revert fr acc.
  induction images as [|image rest IH]; intros fr acc.
  - simpl. unfold_monad. intros [= <-] Hn. exact Hn.
  - rewrite for_each_cons.
    destruct (loop_body image fr) as [[e|[]] fr'] eqn:Hb; [discriminate|].
    intros Hrest Hn. simpl. apply (IH fr'); [exact Hrest|].
    rewrite (loop_body_name _ _ _ _ Hb), Hn. reflexivity.
Qed.

(** C3: when the [try] block of every file of a batch of N files returns,
    the loop completes with a success count of N and no error message. *)
Theorem all_succeed_counts images w fr1 :
  all_succeed images (initial_frame w) fr1 ->
  import_images images (initial_frame w) = (inr tt, fr1)
  /\ interiors_created fr1 = List.length images
  /\ errors fr1 = [].
Proof.
  intros Hall. destruct (all_succeed_import _ _ _ Hall) as (Hrun & Hc & He).
  split; [exact Hrun|]. split; [exact Hc | exact He].
Qed.

(** C4: when exactly one file of a batch of N files fails, in constructing or
    saving its record, the failure is caught, the files after it are still
    processed, the success count is N-1 and the only error message is
    "Error creating interior '<display name>': <failure detail>" for the
    display name of that file. *)
Theorem single_failure_counts pre image post w fr1 filename e fr2 fr3 :
  all_succeed pre (initial_frame w) fr1 ->
  stem image = inr filename ->
  try_body image fr1 = (inl e, fr2) ->
  all_succeed post (append_error (error_message (display_name filename) e) fr2) fr3 ->
  import_images (pre ++ image :: post) (initial_frame w) = (inr tt, fr3)
  /\ interiors_created fr3 = List.length (pre ++ image :: post) - 1
  /\ errors fr3
     = ["Error creating interior '" ++ display_name filename ++ "': " ++ exn_str e].
Proof.
  intros Hpre Hstem Hfail Hpost.
  destruct (all_succeed_import _ _ _ Hpre) as (Hrun1 & Hc1 & He1).
  destruct (all_succeed_import _ _ _ Hpost) as (Hrun3 & Hc3 & He3).
  destruct (try_body_effect _ _ _ _ Hfail) as (He2 & _ & Hn2 & Hc2).
  rewrite Hstem in Hn2.
  unfold import_images in *. rewrite for_each_app, Hrun1, for_each_cons.
  rewrite (loop_body_caught _ _ _ _ _ Hfail Hn2), Hrun3.
  split; [reflexivity|]. simpl in *. split.
  - rewrite Hc3, Hc2, Hc1, List.length_app. simpl. lia.
  - rewrite He3, He2, He1. reflexivity.
Qed.

(** The flow of the [except] clause when the stem of a file cannot be derived
    and an earlier iteration has bound [name]: the message carries the name
    bound last. A file that passed the form's validation has a name, and so a
    stem. *)
Lemma stale_name_reported pre image w fr1 n e :
  import_images pre (initial_frame w) = (inr tt, fr1) ->
  last_display_name pre = Some n ->
  stem image = inl e ->
  loop_body image fr1
  = (inr tt,
     append_error ("Error creating interior '" ++ n ++ "': " ++ exn_str e) fr1)
  /\ import_images (pre ++ [image]) (initial_frame w)
     = (inr tt,
        append_error ("Error creating interior '" ++ n ++ "': " ++ exn_str e) fr1).
Proof.
  intros Hrun Hlast Hstem.
  assert (Hn : name fr1 = Some n).
  { rewrite (import_name _ _ _ None Hrun eq_refl). exact Hlast. }
  assert (Hbody : loop_body image fr1
                  = (inr tt, append_error (error_message n e) fr1)).
  { apply loop_body_caught; [apply try_body_stem_raises, Hstem | exact Hn]. }
  split; [exact Hbody|].
  unfold import_images in *. rewrite for_each_app, Hrun, for_each_cons, Hbody.
  reflexivity.
Qed.

(** C6, as amended: a record that is created and saved has the display name
    computed from the stem of its file's name, and that name is empty
    exactly when the stem is. *)
Theorem created_name_from_stem image fr interior fr1 :
  init_stores_name ->
  try_body image fr = (inr interior, fr1) ->
  exists filename,
    stem image = inr filename
    /\ Interiors_name interior = display_name filename
    /\ (Interiors_name interior = "" <-> filename = "").
Proof.
  intros Hinit Ht. destruct (try_body_returns _ _ _ _ Ht) as (filename & Hstem & Hi).
  exists filename. split; [exact Hstem|]. apply Hinit in Hi. rewrite Hi.
  split; [reflexivity|]. apply display_name_empty.
Qed.

(** C9: when the loop over a batch of N files completes, the success count
    plus the number of error messages is N, each iteration having added
    either one success or one error message. *)
Theorem successes_plus_errors images w fr1 :
  import_images images (initial_frame w) = (inr tt, fr1) ->
  interiors_created fr1 + List.length (errors fr1) = List.length images
  /\ (forall image fr fr',
        loop_body image fr = (inr tt, fr') ->
        (interiors_created fr' = interiors_created fr + 1 /\ errors fr' = errors fr)
        \/ (interiors_created fr' = interiors_created fr
            /\ exists msg, errors fr' = (errors fr ++ [msg])%list)).
Proof.
  intros Hrun. split.
  - apply import_counts in Hrun. simpl in Hrun. lia.
  - intros image fr fr'. apply loop_body_step.
Qed.

End Batch.

Lemma all_succeed_counts_witness :
  let images := [Memory.sofa; Memory.living_room] in
  let fr1 := (import_images (H := Memory.framework) images Memory.frame0).2 in
  all_succeed images Memory.frame0 fr1
  /\ interiors_created fr1 = 2
  /\ errors fr1 = [].
Proof.
  intros images fr1.
  assert (Hall : all_succeed images Memory.frame0 fr1).
  { eapply all_succeed_cons; [lazy; reflexivity|].
    eapply all_succeed_cons; [lazy; reflexivity|]. apply all_succeed_nil. }
  split; [exact Hall|].
  exact (proj2 (all_succeed_counts (H := Memory.framework) images Memory.world0 fr1 Hall)).
Defined.

Lemma single_failure_counts_witness :
  let images := [Memory.sofa; Memory.empty_payload; Memory.living_room] in
  let fr3 := (import_images (H := Memory.framework) images Memory.frame0).2 in
  stem Memory.empty_payload = inr "lamp"
  /\ interiors_created fr3 = 2
  /\ errors fr3 = ["Error creating interior 'Lamp': The submitted file is empty."].
Proof.
  intros images fr3. split; [reflexivity|].
  pose (fr1 := (import_images (H := Memory.framework) [Memory.sofa] Memory.frame0).2).
  pose (fr2 := (try_body (H := Memory.framework) Memory.empty_payload fr1).2).
  pose (e := Exn "ValueError" "The submitted file is empty.").
  assert (Hpre : all_succeed (H := Memory.framework) [Memory.sofa] Memory.frame0 fr1).
  { eapply all_succeed_cons; [lazy; reflexivity | apply all_succeed_nil]. }
  assert (Hpost : all_succeed (H := Memory.framework) [Memory.living_room]
                    (append_error
                       (error_message (display_name (H := Memory.framework) "lamp") e)
                       fr2) fr3).
  { eapply all_succeed_cons; [lazy; reflexivity | apply all_succeed_nil]. }
  exact (proj2 (single_failure_counts (H := Memory.framework)
                  [Memory.sofa] Memory.empty_payload [Memory.living_room]
                  Memory.world0 fr1 "lamp" e fr2 fr3 Hpre eq_refl eq_refl Hpost)).
Defined.

Lemma stale_name_reported_witness :
  import_images (H := Memory.framework) [Memory.sofa; Memory.nameless] Memory.frame0
  = (inr tt,
     append_error
       "Error creating interior 'Sofa': 'NoneType' object has no attribute 'rsplit'"
       (import_images (H := Memory.framework) [Memory.sofa] Memory.frame0).2).
Proof.
  exact (proj2 (stale_name_reported (H := Memory.framework)
                  [Memory.sofa] Memory.nameless Memory.world0
                  (import_images (H := Memory.framework) [Memory.sofa] Memory.frame0).2
                  "Sofa"
                  (Exn "AttributeError" "'NoneType' object has no attribute 'rsplit'")
                  eq_refl eq_refl eq_refl)).
Defined.

(** The same flow for a first file, with validation switched off: no earlier
    iteration has bound [name], the [except] clause raises in turn and the
    exception leaves the loop with no message appended. *)
Lemma first_file_failure_escapes :
  import_images (H := Memory.framework) [Memory.nameless] Memory.frame0
  = (inl (Exn "UnboundLocalError"
            "cannot access local variable 'name' where it is not associated with a value"),
     Memory.frame0)
  /\ ~ (exists msg,
          loop_body (H := Memory.framework) Memory.nameless Memory.frame0
          = (inr tt, append_error msg Memory.frame0)).
Proof.
  split; [reflexivity|]. intros [msg Hmsg]. vm_compute in Hmsg. discriminate.
Qed.

Lemma created_name_from_stem_witness :
  exists interior fr1,
    try_body (H := Memory.framework) Memory.sofa Memory.frame0 = (inr interior, fr1)
    /\ Interiors_name interior = "Sofa"
    /\ exists filename,
         stem Memory.sofa = inr filename
         /\ Interiors_name interior = display_name (H := Memory.framework) filename
         /\ (Interiors_name interior = "" <-> filename = "").
Proof.
  eexists _, _. split; [lazy; reflexivity|]. split; [reflexivity|].
  eapply (created_name_from_stem (H := Memory.framework) Memory.sofa Memory.frame0).
  - intros n image interior [= <-]. reflexivity.
  - lazy; reflexivity.
Defined.

(** C6, as stated, fails for a file named '.jpg': its record is created and
    saved with an empty display name. *)
Lemma dotfile_creates_empty_name :
  exists interior fr1,
    try_body (H := Memory.framework) Memory.dotfile Memory.frame0 = (inr interior, fr1)
    /\ Interiors_name interior = ""
    /\ db (world fr1) = [interior].
Proof. eexists _, _. split; [lazy; reflexivity|]. split; reflexivity. Qed.

Lemma successes_plus_errors_witness :
  let images := [Memory.sofa; Memory.empty_payload; Memory.living_room] in
  let fr1 := (import_images (H := Memory.framework) images Memory.frame0).2 in
  import_images (H := Memory.framework) images Memory.frame0 = (inr tt, fr1)
  /\ interiors_created fr1 + List.length (errors fr1) = 3.
Proof.
  intros images fr1. split; [reflexivity|].
  exact (proj1 (successes_plus_errors (H := Memory.framework) images Memory.world0 fr1
                  eq_refl)).
Defined.

(** ** The upload view *)

Section UploadView.
Context `{!Framework}.

Lemma messages_error_each msgs fr :
  for_each messages_error msgs fr
  = (inr tt,
     set_world
       {| db := db (world fr);
          messages := messages (world fr)
                      ++ map (fun msg => {| level := ERROR; text := msg |}) msgs;
          session := session (world fr);
          stdout := stdout (world fr) |} fr).
Proof.
  revert fr. induction msgs as [|msg msgs IH]; intros fr.
  - simpl. unfold_monad. rewrite app_nil_r. destruct fr as [c e n [d m s o]]. reflexivity.
  - rewrite for_each_cons. unfold messages_error at 1. unfold_monad.
    rewrite IH. simpl. rewrite <- List.app_assoc. reflexivity.
Qed.

(** After a loop that completed, the view queues the notifications and
    redirects, touching nothing else. *)
Lemma upload_valid_notifies images fr fr1 :
  import_images images fr = (inr tt, fr1) ->
  exists fr2,
    upload_valid images fr = (inr (Redirect "admin:interiors_interiors_changelist"), fr2)
    /\ messages (world fr2) = (messages (world fr1) ++ notifications fr1)%list
    /\ db (world fr2) = db (world fr1).
Proof.
  intros Hrun. unfold upload_valid, notifications. unfold_monad. rewrite Hrun.
  destruct (0 <? interiors_created fr1)%nat; simpl.
  - unfold messages_success. unfold_monad. rewrite messages_error_each. simpl.
    eexists. split; [reflexivity|]. simpl. rewrite <- List.app_assoc. auto.
  - rewrite messages_error_each. simpl. eexists. split; [reflexivity|]. auto.
Qed.

Lemma notifications_success fr :
  (exists t, In {| level := SUCCESS; text := t |} (notifications fr))
  <-> 0 < interiors_created fr.
Proof.
  unfold notifications. destruct (Nat.ltb_spec 0 (interiors_created fr)) as [Hpos|Hzero].
  - split; [auto|]. intros _. eexists. left. reflexivity.
  - split; [|lia]. intros [t Hin]. simpl in Hin.
    apply in_map_iff in Hin. destruct Hin as (msg & Heq & _). discriminate.
Qed.

(** C8: a valid POST whose [images] field holds no file runs a loop that ends
    with a success count of 0 and no error, queues no notification, changes
    nothing and redirects to the listing page. After any completed loop the
    queued notifications hold a success message only when the success count
    is greater than 0. *)
Theorem empty_batch_redirects request w :
  method request = "POST" ->
  form_is_valid request = true ->
  FILES request !! "images" = Some [] ->
  import_images [] (initial_frame w) = (inr tt, initial_frame w)
  /\ interiors_created (initial_frame w) = 0
  /\ notifications (initial_frame w) = []
  /\ bulk_upload_view request w
     = (inr (Redirect "admin:interiors_interiors_changelist"), w)
  /\ (forall images fr fr1,
        import_images images fr = (inr tt, fr1) ->
        exists fr2,
          upload_valid images fr
          = (inr (Redirect "admin:interiors_interiors_changelist"), fr2)
          /\ messages (world fr2) = (messages (world fr1) ++ notifications fr1)%list
          /\ ((exists t, In {| level := SUCCESS; text := t |} (notifications fr1))
              <-> 0 < interiors_created fr1)).
Proof.
  intros Hpost Hvalid Hfiles. split; [reflexivity|]. split; [reflexivity|].
  split; [reflexivity|]. split.
  - unfold bulk_upload_view, getlist. rewrite Hvalid, Hfiles.
    destruct (decide (method request = "POST")); [|contradiction].
    simpl. destruct w. reflexivity.
  - intros images fr fr1 Hrun.
    destruct (upload_valid_notifies _ _ _ Hrun) as (fr2 & Hout & Hmsgs & _).
    exists fr2. split; [exact Hout|]. split; [exact Hmsgs|].
    apply notifications_success.
Qed.

End UploadView.

Lemma empty_batch_redirects_witness :
  let request := Memory.request "POST" ∅ {[ "images" := [] ]} in
  method request = "POST"
  /\ bulk_upload_view (H := Memory.framework) request Memory.world0
     = (inr (Redirect "admin:interiors_interiors_changelist"), Memory.world0).
Proof.
  intros request. split; [reflexivity|].
  exact (proj1 (proj2 (proj2 (proj2
    (empty_batch_redirects (H := Memory.framework) request Memory.world0
       eq_refl eq_refl eq_refl))))).
Defined.

(** A mixed batch, run through the whole view: two records saved, one
    success notification and one error notification, then the redirect. *)
Example mixed_batch_view :
  bulk_upload_view (H := Memory.framework)
    (Memory.request "POST" ∅
       {[ "images" := [Memory.sofa; Memory.empty_payload; Memory.living_room] ]})
    Memory.world0
  = (inr (Redirect "admin:interiors_interiors_changelist"),
     {| db := [ {| Memory.row_name := "Sofa"; Memory.row_image := Memory.sofa |};
                {| Memory.row_name := "Modern Living Room";
                   Memory.row_image := Memory.living_room |} ];
        messages :=
          [ {| level := SUCCESS; text := "Successfully created 2 interiors." |};
            {| level := ERROR;
               text := "Error creating interior 'Lamp': The submitted file is empty." |} ];
        session := ∅;
        stdout := [] |}).
Proof. vm_compute. reflexivity. Qed.

(** ** The view-mode toggle *)

Section ViewMode.
Context `{!Framework}.

Lemma changelist_view_query request extra_context w v :
  GET request !! "view" = Some v ->
  changelist_view request extra_context w
  = super_changelist_view request
      (<["view_mode" := v]> (default ∅ extra_context))
      (print ("View mode: " ++ v) (set_session "view_mode" v w)).
Proof.
  intros Hget. unfold changelist_view. unfold_monad. rewrite Hget. reflexivity.
Qed.

Lemma changelist_view_session request extra_context w :
  GET request !! "view" = None ->
  changelist_view request extra_context w
  = super_changelist_view request
      (<["view_mode" := default "list" (session w !! "view_mode")]>
         (default ∅ extra_context))
      (print ("View mode: " ++ default "list" (session w !! "view_mode")) w).
Proof.
  intros Hget. unfold changelist_view. unfold_monad. rewrite Hget. reflexivity.
Qed.

(** C7: a request with [view=grid] writes "grid" under the session's
    view-mode key and hands "grid" to the listing; provided the parent's
    listing leaves that key alone, a later request of the same session with
    no [view] parameter reads "grid" back from the session. With neither a
    [view] parameter nor a stored view mode, the view mode is "list". *)
Theorem view_mode_persists request1 context1 w request2 context2 w2 :
  super_keeps_view_mode ->
  GET request1 !! "view" = Some "grid" ->
  GET request2 !! "view" = None ->
  session w2 !! "view_mode"
  = session (changelist_view request1 context1 w).2 !! "view_mode" ->
  changelist_view request1 context1 w
  = super_changelist_view request1
      (<["view_mode" := "grid"]> (default ∅ context1))
      (print "View mode: grid" (set_session "view_mode" "grid" w))
  /\ session (set_session "view_mode" "grid" w) !! "view_mode" = Some "grid"
  /\ session (changelist_view request1 context1 w).2 !! "view_mode" = Some "grid"
  /\ changelist_view request2 context2 w2
     = super_changelist_view request2
         (<["view_mode" := "grid"]> (default ∅ context2))
         (print "View mode: grid" w2)
  /\ (forall request context w0,
        GET request !! "view" = None ->
        session w0 !! "view_mode" = None ->
        changelist_view request context w0
        = super_changelist_view request
            (<["view_mode" := "list"]> (default ∅ context))
            (print "View mode: list" w0)).
Proof.
  intros Hsuper Hgrid Hnone Hsame.
  assert (Hstored : session (changelist_view request1 context1 w).2 !! "view_mode"
                    = Some "grid").
  { rewrite (changelist_view_query _ _ _ _ Hgrid), Hsuper. simpl.
    apply lookup_insert_eq. }
  split; [apply (changelist_view_query _ _ _ _ Hgrid)|].
  split; [simpl; apply lookup_insert_eq|].
  split; [exact Hstored|]. split.
  - rewrite (changelist_view_session _ _ _ Hnone), Hsame, Hstored. reflexivity.
  - intros request context w0 Hget Hsess.
    rewrite (changelist_view_session _ _ _ Hget), Hsess. reflexivity.
Qed.

End ViewMode.

Lemma view_mode_persists_witness :
  let request1 := Memory.request "GET" {[ "view" := "grid" ]} ∅ in
  let request2 := Memory.request "GET" ∅ ∅ in
  let w1 := (changelist_view (H := Memory.framework) request1 None Memory.world0).2 in
  GET request1 !! "view" = Some "grid"
  /\ GET request2 !! "view" = None
  /\ session w1 !! "view_mode" = Some "grid"
  /\ changelist_view (H := Memory.framework) request2 None w1
     = (inr (HttpResponse "grid"),
        print (H := Memory.framework) "View mode: grid" w1).
Proof.
  intros request1 request2 w1.
  split; [reflexivity|]. split; [reflexivity|].
  assert (Hkeeps : super_keeps_view_mode (H := Memory.framework)).
  { intros request context w. reflexivity. }
  destruct (view_mode_persists (H := Memory.framework)
              request1 None Memory.world0 request2 None w1
              Hkeeps eq_refl eq_refl eq_refl) as (_ & _ & Hstored & Hread & _).
  split; [exact Hstored|]. rewrite Hread. reflexivity.
Defined.

(** ** The preview column *)

Section Preview.
Context `{!Framework}.

(** C10, as amended: [image_preview] returns "No Image" for an object whose
    image is false, without raising. For an object whose image is true it
    returns the [img] fragment around the escaped URL when the storage gives
    the URL of the image's file, and raises what the storage raises when it
    gives none; it raises in no other case. *)
Theorem image_preview_outcomes obj :
  (FieldFile_bool (Interiors_image obj) = false ->
   image_preview obj = inr "No Image")
  /\ (FieldFile_bool (Interiors_image obj) = true ->
      exists file,
        ff_name (Interiors_image obj) = Some file
        /\ (forall url,
              storage_url file = inr url ->
              image_preview obj
              = inr (img_prefix ++ conditional_escape url ++ img_suffix))
        /\ (forall e, storage_url file = inl e -> image_preview obj = inl e))
  /\ (forall e,
        image_preview obj = inl e ->
        FieldFile_bool (Interiors_image obj) = true
        /\ exists file,
             ff_name (Interiors_image obj) = Some file /\ storage_url file = inl e).
Proof.
  unfold image_preview, FieldFile_bool, FieldFile_url, format_img.
  destruct (ff_name (Interiors_image obj)) as [file|]; simpl.
  - destruct (String.eqb file ""); simpl.
    + split; [reflexivity|]. split; discriminate.
    + split; [discriminate|]. split.
      * intros _. exists file. split; [reflexivity|].
        split; [intros url -> | intros e ->]; reflexivity.
      * intros e He. split; [reflexivity|]. exists file. split; [reflexivity|].
        destruct (storage_url file); [congruence | discriminate].
  - split; [reflexivity|]. split; discriminate.
Qed.

End Preview.

Lemma image_preview_outcomes_witness :
  FieldFile_bool
    (Interiors_image (Framework := Memory.framework)
       {| Memory.row_name := "Sofa"; Memory.row_image := Memory.sofa |}) = true
  /\ image_preview (H := Memory.framework)
       {| Memory.row_name := "Sofa"; Memory.row_image := Memory.sofa |}
     = inr (img_prefix ++ "/media/SOFA.png" ++ img_suffix).
Proof.
  split; [reflexivity|].
  destruct (proj1 (proj2 (image_preview_outcomes (H := Memory.framework)
                            {| Memory.row_name := "Sofa";
                               Memory.row_image := Memory.sofa |})) eq_refl)
    as (file & Hfile & Hpreview & _).
  injection Hfile as <-. exact (Hpreview "/media/SOFA.png" eq_refl).
Defined.

(** C10, as stated, fails for an object with a file on a storage that serves
    no URL: the image is true, [obj.image.url] raises and so does
    [image_preview]. *)
Lemma image_preview_raises_without_url :
  FieldFile_bool
    (Interiors_image (Framework := Memory.framework_without_urls)
       {| Memory.row_name := "Sofa"; Memory.row_image := Memory.sofa |}) = true
  /\ image_preview (H := Memory.framework_without_urls)
       {| Memory.row_name := "Sofa"; Memory.row_image := Memory.sofa |}
     = inl (Exn "ValueError" "This file is not accessible via a URL.").
Proof. split; reflexivity. Qed.

(** * Further properties of the module *)

(** ** Filenames and display names *)

Lemma ascii_case_facts c :
  PyStr.is_cased (PyStr.to_lower c) = PyStr.is_cased c
  /\ PyStr.is_cased (PyStr.to_title c) = PyStr.is_cased c
  /\ PyStr.to_lower (PyStr.to_lower c) = PyStr.to_lower c
  /\ PyStr.to_title (PyStr.to_title c) = PyStr.to_title c
  /\ PyStr.to_title (PyStr.to_lower c) = PyStr.to_title c
  /\ PyStr.to_lower (PyStr.to_title c) = PyStr.to_lower c
  /\ PyStr.is_lower (PyStr.to_title c) = false
  /\ PyStr.is_upper (PyStr.to_lower c) = false.
Proof. destruct c as [[] [] [] [] [] [] [] []]; vm_compute; repeat split. Qed.

Lemma replace_absent old new s :
  PyStr.contains old s = false -> PyStr.replace old new s = s.
Proof.
  induction s as [|c s IH]; simpl; [reflexivity|].
  destruct (decide (c = old)); [discriminate|]. intros Hs. rewrite (IH Hs).
  destruct (decide (c = old)); [contradiction | reflexivity].
Qed.

Lemma title_from_idempotent b s :
  PyStr.title_from b (PyStr.title_from b s) = PyStr.title_from b s.
Proof.
  revert b. induction s as [|c s IH]; intros b; simpl; [reflexivity|].
  destruct (ascii_case_facts c) as (Hcl & Hct & Hll & Htt & _).
  destruct b; simpl.
  - rewrite Hll, Hcl, IH. reflexivity.
  - rewrite Htt, Hct, IH. reflexivity.
Qed.

Lemma title_from_lower b s :
  PyStr.title_from b (lower s) = PyStr.title_from b s.
Proof.
  revert b. induction s as [|c s IH]; intros b; simpl; [reflexivity|].
  destruct (ascii_case_facts c) as (Hcl & _ & Hll & _ & Htl & _).
  rewrite Hcl, IH. destruct b; [rewrite Hll | rewrite Htl]; reflexivity.
Qed.

Lemma replace_lower old s :
  PyStr.is_cased old = false ->
  PyStr.replace old " " (lower s) = lower (PyStr.replace old " " s).
Proof.
  intros Hold. induction s as [|c s IH]; simpl; [reflexivity|]. rewrite IH. f_equal.
  destruct (decide (c = old)) as [->|Hne].
  - assert (Hfix : PyStr.to_lower old = old).
    { unfold PyStr.to_lower. unfold PyStr.is_cased in Hold.
      destruct (PyStr.is_upper old); [discriminate | reflexivity]. }
    rewrite Hfix. destruct (decide (old = old)); [reflexivity | contradiction].
  - destruct (decide (PyStr.to_lower c = old)) as [Heq|_]; [|reflexivity].
    exfalso. destruct (to_title_not c old Hold Hne) as [_ Hl]. contradiction.
Qed.

(** X1: joining the pieces of [rsplit] with the separator gives the string
    back, and there are one or two pieces, so that taking the first piece
    never fails. *)
Theorem rsplit1_join sep s :
  String.concat (String sep EmptyString) (PyStr.rsplit1 sep s) = s
  /\ 1 <= List.length (PyStr.rsplit1 sep s) <= 2
  /\ exists first, hd_error (PyStr.rsplit1 sep s) = Some first.
Proof.
  unfold PyStr.rsplit1. destruct (PyStr.rpartition sep s) as [[a b]|] eqn:Hr.
  - destruct (rpartition_Some _ _ _ _ Hr) as [-> _]. simpl.
    split; [reflexivity|]. split; [lia | eauto].
  - simpl. split; [reflexivity|]. split; [lia | eauto].
Qed.

(** X2: deriving the stem of a file's name fails only for a file with no
    name, with [AttributeError]; a file with a name always has a stem. *)
Theorem stem_fails_only_without_name `{!Framework} image :
  (forall e, stem image = inl e ->
             file_name image = None /\ exn_class e = "AttributeError")
  /\ (forall s, file_name image = Some s -> exists filename, stem image = inr filename)
  /\ (file_name image = None -> exists e, stem image = inl e).
Proof.
  unfold stem. destruct (file_name image) as [s|].
  - unfold PyStr.rsplit1. destruct (PyStr.rpartition "." s) as [[a b]|];
      (split; [discriminate|]); split; eauto; discriminate.
  - split; [intros e [= <-]; auto|]. split; [discriminate | eauto].
Qed.

Lemma stem_fails_only_without_name_witness :
  stem Memory.nameless
  = inl (Exn "AttributeError" "'NoneType' object has no attribute 'rsplit'")
  /\ file_name Memory.nameless = None
  /\ exists filename, stem Memory.sofa = inr filename.
Proof.
  split; [reflexivity|].
  split.
  - exact (proj1 (proj1 (stem_fails_only_without_name (H := Memory.framework)
                           Memory.nameless) _ eq_refl)).
  - exact (proj1 (proj2 (stem_fails_only_without_name (H := Memory.framework)
                           Memory.sofa)) "SOFA.png" eq_refl).
Defined.

Lemma contains_middle sep a b : PyStr.contains sep (a ++ String sep b) = true.
Proof.
  induction a as [|d a IH]; simpl.
  - destruct (decide (sep = sep)); [reflexivity | contradiction].
  - destruct (decide (d = sep)); [reflexivity | exact IH].
Qed.

(** X3: the display name bound for a named file is empty exactly when the
    filename is empty or is a '.' followed by a part that has no '.'. *)
Theorem empty_display_name `{!Framework} image s fr :
  file_name image = Some s ->
  name (loop_body image fr).2 = Some ""
  <-> s = "" \/ exists ext, s = String "." ext /\ PyStr.contains "." ext = false.
Proof.
  intros Hs. rewrite (loop_body_name image fr _ _ (surjective_pairing _)).
  unfold stem. rewrite Hs. unfold PyStr.rsplit1.
  destruct (PyStr.rpartition "." s) as [[a b]|] eqn:Hr.
  - destruct (rpartition_Some _ _ _ _ Hr) as [Heq Hb]. split.
    + intros [= Hn]. apply (proj1 (display_name_empty a)) in Hn.
      right. exists b. subst a. auto.
    + intros [Hnil | (ext & Hext & Hno)].
      * subst s. destruct a; discriminate.
      * destruct a as [|c a]; [reflexivity|]. exfalso.
        rewrite Heq in Hext. simpl in Hext. injection Hext as _ <-.
        rewrite contains_middle in Hno. discriminate.
  - apply rpartition_None in Hr. split.
    + intros [= Hn]. apply (proj1 (display_name_empty s)) in Hn. auto.
    + intros [-> | (ext & -> & _)]; [reflexivity|].
      simpl in Hr. discriminate.
Qed.

Lemma empty_display_name_witness :
  file_name Memory.dotfile = Some ".jpg"
  /\ name (loop_body (H := Memory.framework) Memory.dotfile Memory.frame0).2 = Some "".
Proof.
  split; [reflexivity|].
  apply (proj2 (empty_display_name (H := Memory.framework)
                  Memory.dotfile ".jpg" Memory.frame0 eq_refl)).
  right. exists "jpg". split; reflexivity.
Defined.

Lemma title_from_head b s c :
  PyStr.char_at (PyStr.title_from b s) 0 = Some c ->
  if b then PyStr.is_upper c = false else PyStr.is_lower c = false.
Proof.
  destruct s as [|x s]; simpl; [discriminate|]. intros [= <-].
  destruct (ascii_case_facts x) as (_ & _ & _ & _ & _ & _ & Hl & Hu).
  destruct b; assumption.
Qed.

Lemma title_from_adjacent b s i c d :
  PyStr.char_at (PyStr.title_from b s) i = Some c ->
  PyStr.char_at (PyStr.title_from b s) (S i) = Some d ->
  if PyStr.is_cased c then PyStr.is_upper d = false else PyStr.is_lower d = false.
Proof.
  revert b i. induction s as [|x s IH]; intros b i; simpl; [discriminate|].
  destruct i as [|i].
  - intros [= <-] Hd.
    assert (Hc : PyStr.is_cased (if b then PyStr.to_lower x else PyStr.to_title x)
                 = PyStr.is_cased x).
    { destruct (ascii_case_facts x) as (Hl & Ht & _). destruct b; assumption. }
    rewrite Hc. exact (title_from_head _ _ _ Hd).
  - apply IH.
Qed.

Lemma is_ascii_lower s : PyStr.is_ascii (lower s) = PyStr.is_ascii s.
Proof.
  induction s as [|c s IH]; simpl; [reflexivity|].
  rewrite IH, (proj2 (ascii_range_kept c)). reflexivity.
Qed.

(** X4: the display name of a stem of ASCII characters is in title case: it
    does not start with a lower-case letter, no upper-case letter follows a
    letter and no lower-case letter follows a character that is not a
    letter. *)
Theorem display_name_title_case `{!Framework} filename :
  PyStr.is_ascii filename = true ->
  PyStr.is_ascii (display_name filename) = true
  /\ (forall c, PyStr.char_at (display_name filename) 0 = Some c ->
                PyStr.is_lower c = false)
  /\ (forall i c d,
        PyStr.char_at (display_name filename) i = Some c ->
        PyStr.char_at (display_name filename) (S i) = Some d ->
        if PyStr.is_cased c then PyStr.is_upper d = false
        else PyStr.is_lower d = false).
Proof.
  intros Hascii. destruct (display_name_ascii filename Hascii) as [Heq Hout].
  split; [exact Hout|]. rewrite Heq. unfold PyStr.title. split.
  - intros c Hc. exact (title_from_head false _ _ Hc).
  - intros i c d. apply title_from_adjacent.
Qed.

Lemma display_name_title_case_witness :
  PyStr.is_ascii "modern_living-room" = true
  /\ PyStr.char_at (display_name (H := Memory.framework) "modern_living-room") 6
     = Some " "%char
  /\ PyStr.char_at (display_name (H := Memory.framework) "modern_living-room") 7
     = Some "L"%char
  /\ PyStr.is_lower "L" = false.
Proof.
  split; [reflexivity|]. split; [reflexivity|]. split; [reflexivity|].
  exact (proj2 (proj2 (display_name_title_case (H := Memory.framework)
                         "modern_living-room" eq_refl))
           6 " "%char "L"%char eq_refl eq_refl).
Defined.

(** X5: for a stem of ASCII characters, deriving a display name from the
    display name changes nothing. *)
Theorem display_name_idempotent `{!Framework} filename :
  PyStr.is_ascii filename = true ->
  display_name (display_name filename) = display_name filename.
Proof.
  intros Hascii. destruct (display_name_ascii filename Hascii) as [Heq Hout].
  destruct (display_name_ascii (display_name filename) Hout) as [-> _].
  rewrite Heq. unfold PyStr.title.
  set (spaced := PyStr.replace "-" " " (PyStr.replace "_" " " filename)).
  assert (Hu : PyStr.contains "_" (PyStr.title_from false spaced) = false).
  { apply contains_title_from; [reflexivity|].
    apply contains_replace_other; [discriminate|].
    apply contains_replace_old. discriminate. }
  assert (Hh : PyStr.contains "-" (PyStr.title_from false spaced) = false).
  { apply contains_title_from; [reflexivity|].
    apply contains_replace_old. discriminate. }
  rewrite (replace_absent "_" " " _ Hu), (replace_absent "-" " " _ Hh).
  apply title_from_idempotent.
Qed.

Lemma display_name_idempotent_witness :
  PyStr.is_ascii "modern_living-room" = true
  /\ display_name (H := Memory.framework) "modern_living-room" = "Modern Living Room"
  /\ display_name (H := Memory.framework) "Modern Living Room" = "Modern Living Room".
Proof.
  split; [reflexivity|]. split; [reflexivity|].
  exact (display_name_idempotent (H := Memory.framework) "modern_living-room" eq_refl).
Defined.

(** X6: the display name of a stem of ASCII characters does not depend on
    the case of its letters: the stem and its lower-cased form get the same
    one. *)
Theorem display_name_ignores_case `{!Framework} filename :
  PyStr.is_ascii filename = true ->
  display_name (lower filename) = display_name filename.
Proof.
  intros Hascii.
  assert (Hlower : PyStr.is_ascii (lower filename) = true)
    by (rewrite is_ascii_lower; exact Hascii).
  destruct (display_name_ascii filename Hascii) as [-> _].
  destruct (display_name_ascii (lower filename) Hlower) as [-> _].
  unfold PyStr.title.
  rewrite (replace_lower "_" filename eq_refl).
  rewrite (replace_lower "-" _ eq_refl).
  apply title_from_lower.
Qed.

Lemma display_name_ignores_case_witness :
  PyStr.is_ascii "SOFA_Bed" = true
  /\ lower "SOFA_Bed" = "sofa_bed"
  /\ display_name (H := Memory.framework) "sofa_bed"
     = display_name (H := Memory.framework) "SOFA_Bed".
Proof.
  split; [reflexivity|]. split; [reflexivity|].
  exact (display_name_ignores_case (H := Memory.framework) "SOFA_Bed" eq_refl).
Defined.

(** ** The upload loop, beyond counting *)

Section LoopExtras.
Context `{!Framework}.

(** What a [try] block does to the world: at most one save. *)
Lemma try_body_world image fr r fr1 :
  try_body image fr = (r, fr1) ->
  messages (world fr1) = messages (world fr)
  /\ session (world fr1) = session (world fr)
  /\ stdout (world fr1) = stdout (world fr)
  /\ db (world fr1) = saved_in_order [image] (db (world fr)).
Proof.
  unfold try_body, save, saved_in_order. unfold_monad. simpl.
  destruct (stem image) as [e|filename]; simpl.
  - intros [= <- <-]. auto.
  - destruct (Interiors_init (display_name filename) image) as [e|interior]; simpl.
    + intros [= <- <-]. auto.
    + destruct (Interiors_save interior (db (world fr))) as [[e|[]] d]; simpl;
        intros [= <- <-]; auto.
Qed.

Lemma loop_body_cases image fr r fr1 :
  loop_body image fr = (r, fr1) ->
  exists r0 fr0,
    try_body image fr = (r0, fr0)
    /\ world fr1 = world fr0
    /\ name fr1 = name fr0
    /\ (r = inr tt \/ (name fr0 = None /\ exists e, r0 = inl e)).
Proof.
  destruct (try_body image fr) as [[e|interior] fr0] eqn:Ht; intros Hb.
  - exists (inl e), fr0. split; [reflexivity|].
    destruct (name fr0) as [n|] eqn:Hn.
    + rewrite (loop_body_caught _ _ _ _ _ Ht Hn) in Hb. injection Hb as <- <-. auto.
    + destruct (loop_body_escapes _ _ _ _ Ht Hn) as (e' & He' & _).
      rewrite He' in Hb. injection Hb as <- <-. eauto 6.
  - exists (inr interior), fr0. split; [reflexivity|].
    rewrite (loop_body_returned _ _ _ _ Ht) in Hb. injection Hb as <- <-. auto.
Qed.

Lemma loop_body_world image fr r fr1 :
  loop_body image fr = (r, fr1) ->
  messages (world fr1) = messages (world fr)
  /\ session (world fr1) = session (world fr)
  /\ stdout (world fr1) = stdout (world fr)
  /\ db (world fr1) = saved_in_order [image] (db (world fr)).
Proof.
  intros Hb. destruct (loop_body_cases _ _ _ _ Hb) as (r0 & fr0 & Ht & -> & _).
  exact (try_body_world _ _ _ _ Ht).
Qed.

(** Once [name] is bound, an iteration completes and leaves it bound. *)
Lemma loop_body_bound image fr n :
  name fr = Some n ->
  exists fr1 n1, loop_body image fr = (inr tt, fr1) /\ name fr1 = Some n1.
Proof.
  intros Hn. destruct (loop_body image fr) as [r fr1] eqn:Hb.
  pose proof (loop_body_name _ _ _ _ Hb) as Hname.
  destruct (loop_body_cases _ _ _ _ Hb) as (r0 & fr0 & Ht & _ & Hsame & Hr).
  assert (Hbound : exists n1, name fr1 = Some n1).
  { rewrite Hname. destruct (stem image); eauto. }
  destruct Hbound as [n1 Hn1]. exists fr1, n1. split; [|exact Hn1].
  destruct Hr as [-> | (Hnone & _)]; [reflexivity|]. congruence.
Qed.

Lemma import_images_bound images fr n :
  name fr = Some n -> exists fr1, import_images images fr = (inr tt, fr1).
Proof.
  unfold import_images. revert fr n.
  induction images as [|image rest IH]; intros fr n Hn.
  - exists fr. reflexivity.
  - destruct (loop_body_bound image fr n Hn) as (fr' & n' & Hb & Hn').
    rewrite for_each_cons, Hb. exact (IH fr' n' Hn').
Qed.

Lemma import_images_world images fr r fr1 :
  import_images images fr = (r, fr1) ->
  messages (world fr1) = messages (world fr)
  /\ session (world fr1) = session (world fr)
  /\ stdout (world fr1) = stdout (world fr).
Proof.
  unfold import_images. revert fr.
  induction images as [|image rest IH]; intros fr.
  - simpl. unfold_monad. intros [= <- <-]. auto.
  - rewrite for_each_cons. destruct (loop_body image fr) as [[e|[]] fr'] eqn:Hb.
    + intros [= <- <-]. destruct (loop_body_world _ _ _ _ Hb) as (? & ? & ? & _). auto.
    + intros Hrest. destruct (IH _ Hrest) as (-> & -> & ->).
      destruct (loop_body_world _ _ _ _ Hb) as (? & ? & ? & _). auto.
Qed.

(** When the loop raises and when it completes. *)
Lemma import_images_first_file images w :
  (forall image rest e,
     images = image :: rest -> stem image = inl e ->
     import_images images (initial_frame w)
     = (inl (Exn "UnboundLocalError"
               "cannot access local variable 'name' where it is not associated with a value"),
        initial_frame w))
  /\ (forall e fr,
        import_images images (initial_frame w) = (inl e, fr) ->
        exists image rest e0, images = image :: rest /\ stem image = inl e0)
  /\ (images = [] \/ (exists image rest filename,
                        images = image :: rest /\ stem image = inr filename) ->
      exists fr1, import_images images (initial_frame w) = (inr tt, fr1)).
Proof.
  split; [|split].
  - intros image rest e -> Hstem. unfold import_images. rewrite for_each_cons.
    unfold loop_body, except_clause. unfold_monad.
    rewrite (try_body_stem_raises _ _ _ Hstem). reflexivity.
  - intros e fr Hrun. destruct images as [|image rest].
    + discriminate.
    + destruct (stem image) as [e0|filename] eqn:Hstem; [eauto|]. exfalso.
      unfold import_images in Hrun. rewrite for_each_cons in Hrun.
      destruct (loop_body image (initial_frame w)) as [r fr'] eqn:Hb.
      pose proof (loop_body_name _ _ _ _ Hb) as Hname. rewrite Hstem in Hname.
      destruct (loop_body_cases _ _ _ _ Hb) as (r0 & fr0 & Ht & _ & Hsame & Hr).
      destruct Hr as [-> | (Hnone & _)]; [|congruence].
      destruct (import_images_bound rest fr' _ Hname) as [fr1 Hrest].
      unfold import_images in Hrest. rewrite Hrest in Hrun. discriminate.
  - intros [-> | (image & rest & filename & -> & Hstem)].
    + exists (initial_frame w). reflexivity.
    + unfold import_images. rewrite for_each_cons.
      destruct (loop_body image (initial_frame w)) as [r fr'] eqn:Hb.
      pose proof (loop_body_name _ _ _ _ Hb) as Hname. rewrite Hstem in Hname.
      destruct (loop_body_cases _ _ _ _ Hb) as (r0 & fr0 & Ht & _ & Hsame & Hr).
      destruct Hr as [-> | (Hnone & _)]; [|congruence].
      exact (import_images_bound rest fr' _ Hname).
Qed.

(** X7: the loop raises exactly when the first file of the batch has no
    derivable name. It then raises [UnboundLocalError], whatever the first
    failure was, with nothing saved, counted or reported; in every other
    case the whole batch is processed. *)
Theorem loop_raises_only_at_first_file images w :
  (forall image rest e,
     images = image :: rest -> stem image = inl e ->
     import_images images (initial_frame w)
     = (inl (Exn "UnboundLocalError"
               "cannot access local variable 'name' where it is not associated with a value"),
        initial_frame w))
  /\ (forall e fr,
        import_images images (initial_frame w) = (inl e, fr) ->
        exists image rest e0, images = image :: rest /\ stem image = inl e0)
  /\ (images = [] \/ (exists image rest filename,
                        images = image :: rest /\ stem image = inr filename) ->
      exists fr1, import_images images (initial_frame w) = (inr tt, fr1)).
Proof. exact (import_images_first_file images w). Qed.

(** The store after a completed loop. *)
Lemma import_images_db images fr fr1 :
  import_images images fr = (inr tt, fr1) ->
  db (world fr1) = saved_in_order images (db (world fr)).
Proof.
  unfold import_images. revert fr.
  induction images as [|image rest IH]; intros fr.
  - simpl. unfold_monad. intros [= <-]. reflexivity.
  - rewrite for_each_cons. destruct (loop_body image fr) as [[e|[]] fr'] eqn:Hb;
      [discriminate|].
    intros Hrest. rewrite (IH _ Hrest).
    destruct (loop_body_world _ _ _ _ Hb) as (_ & _ & _ & ->). reflexivity.
Qed.

(** X8: when the loop completes, the store is the one reached by saving, in
    file order, the record of every file that got as far as a constructed
    record: a failure keeps no later file from being saved and undoes no
    earlier save. *)
Theorem loop_saves_in_order images fr fr1 :
  import_images images fr = (inr tt, fr1) ->
  db (world fr1) = saved_in_order images (db (world fr)).
Proof. exact (import_images_db images fr fr1). Qed.

End LoopExtras.

Lemma loop_raises_only_at_first_file_witness :
  stem Memory.nameless
  = inl (Exn "AttributeError" "'NoneType' object has no attribute 'rsplit'")
  /\ import_images (H := Memory.framework) [Memory.nameless; Memory.sofa] Memory.frame0
     = (inl (Exn "UnboundLocalError"
               "cannot access local variable 'name' where it is not associated with a value"),
        Memory.frame0).
Proof.
  split; [reflexivity|].
  exact (proj1 (loop_raises_only_at_first_file (H := Memory.framework)
                  [Memory.nameless; Memory.sofa] Memory.world0)
           Memory.nameless [Memory.sofa] _ eq_refl eq_refl).
Defined.

Lemma loop_saves_in_order_witness :
  let images := [Memory.sofa; Memory.empty_payload; Memory.living_room] in
  let fr1 := (import_images (H := Memory.framework) images Memory.frame0).2 in
  import_images (H := Memory.framework) images Memory.frame0 = (inr tt, fr1)
  /\ db (world fr1)
     = [ {| Memory.row_name := "Sofa"; Memory.row_image := Memory.sofa |};
         {| Memory.row_name := "Modern Living Room";
            Memory.row_image := Memory.living_room |} ].
Proof.
  intros images fr1. split; [reflexivity|].
  rewrite (loop_saves_in_order (H := Memory.framework) images Memory.frame0 fr1 eq_refl).
  reflexivity.
Defined.

Section Reports.
Context `{!Framework}.

Lemma names_file_more pre image n :
  names_file pre n -> names_file (pre ++ [image]) n.
Proof.
  intros (i & f & Hin & Hs & Hn). exists i, f. split; [|auto].
  apply in_or_app. auto.
Qed.

(** The messages and the bound name always come from files already seen. *)
Lemma import_images_reports rest pre fr fr1 :
  import_images rest fr = (inr tt, fr1) ->
  (forall n, name fr = Some n -> names_file pre n) ->
  Forall (fun msg => exists n detail,
            names_file pre n
            /\ msg = "Error creating interior '" ++ n ++ "': " ++ detail) (errors fr) ->
  Forall (fun msg => exists n detail,
            names_file (pre ++ rest) n
            /\ msg = "Error creating interior '" ++ n ++ "': " ++ detail) (errors fr1).
Proof.
  unfold import_images. revert pre fr.
  induction rest as [|image rest IH]; intros pre fr.
  - simpl. unfold_monad. intros [= <-] _ Herr. rewrite app_nil_r. exact Herr.
  - rewrite for_each_cons. destruct (loop_body image fr) as [[e|[]] fr'] eqn:Hb;
      [discriminate|].
    intros Hrest Hname Herr.
    replace (pre ++ image :: rest)%list with ((pre ++ [image]) ++ rest)%list
      by (rewrite <- List.app_assoc; reflexivity).
    assert (Hname' : forall n, name fr' = Some n -> names_file (pre ++ [image]) n).
    { intros n. rewrite (loop_body_name _ _ _ _ Hb).
      destruct (stem image) as [e|filename] eqn:Hstem.
      - intros Hn. apply names_file_more, Hname, Hn.
      - intros [= <-]. exists image, filename. split; [|auto].
        apply in_or_app. right. left. reflexivity. }
    apply (IH (pre ++ [image])%list fr' Hrest Hname').
    assert (Hold : Forall (fun msg => exists n detail,
                             names_file (pre ++ [image]) n
                             /\ msg = "Error creating interior '" ++ n ++ "': " ++ detail)
                     (errors fr)).
    { eapply Forall_impl; [exact Herr|]. intros msg (n & detail & Hn & ->).
      exists n, detail. split; [apply names_file_more, Hn | reflexivity]. }
    destruct (try_body image fr) as [[e|interior] fr0] eqn:Ht.
    + destruct (name fr0) as [n|] eqn:Hn.
      * rewrite (loop_body_caught _ _ _ _ _ Ht Hn) in Hb. injection Hb as <-.
        destruct (try_body_effect _ _ _ _ Ht) as (He & _).
        simpl. rewrite He. apply Forall_app. split; [exact Hold|].
        constructor; [|constructor]. exists n, (exn_str e). split; [|reflexivity].
        apply Hname'. simpl. exact Hn.
      * destruct (loop_body_escapes _ _ _ _ Ht Hn) as (e' & He' & _).
        rewrite He' in Hb. discriminate.
    + rewrite (loop_body_returned _ _ _ _ Ht) in Hb. injection Hb as <-.
      destruct (try_body_effect _ _ _ _ Ht) as (He & _). rewrite He. exact Hold.
Qed.

(** X9: after a completed run over a batch, every error message has the
    form "Error creating interior '<name>': <detail>" where <name> is the
    display name of some file of that batch. *)
Theorem error_messages_name_batch_files images w fr1 :
  import_images images (initial_frame w) = (inr tt, fr1) ->
  Forall (fun msg => exists n detail,
            names_file images n
            /\ msg = "Error creating interior '" ++ n ++ "': " ++ detail) (errors fr1).
Proof.
  intros Hrun.
  apply (import_images_reports images [] (initial_frame w) fr1 Hrun).
  - simpl. discriminate.
  - constructor.
Qed.

(** X10: after a completed run over a batch of N files, at most N
    notifications are due, and at least one when the batch is not empty. *)
Theorem notifications_bounded images w fr1 :
  import_images images (initial_frame w) = (inr tt, fr1) ->
  List.length (notifications fr1) <= List.length images
  /\ (images <> [] -> 1 <= List.length (notifications fr1)).
Proof.
  intros Hrun. apply import_counts in Hrun. simpl in Hrun.
  unfold notifications. rewrite List.length_app, List.length_map.
  destruct (Nat.ltb_spec 0 (interiors_created fr1)) as [Hpos|Hzero]; simpl.
  - split; [lia|]. intros _. lia.
  - split; [lia|]. intros Hne. destruct images; [contradiction|]. simpl in Hrun. lia.
Qed.

End Reports.

Lemma error_messages_name_batch_files_witness :
  let images := [Memory.sofa; Memory.empty_payload; Memory.nameless] in
  let fr1 := (import_images (H := Memory.framework) images Memory.frame0).2 in
  errors fr1
  = ["Error creating interior 'Lamp': The submitted file is empty.";
     "Error creating interior 'Lamp': 'NoneType' object has no attribute 'rsplit'"]
  /\ Forall (fun msg => exists n detail,
               names_file (H := Memory.framework) images n
               /\ msg = "Error creating interior '" ++ n ++ "': " ++ detail) (errors fr1).
Proof.
  intros images fr1. split; [reflexivity|].
  exact (error_messages_name_batch_files (H := Memory.framework)
           images Memory.world0 fr1 eq_refl).
Defined.

Lemma notifications_bounded_witness :
  let images := [Memory.sofa; Memory.empty_payload; Memory.living_room] in
  let fr1 := (import_images (H := Memory.framework) images Memory.frame0).2 in
  List.length (notifications fr1) = 2
  /\ List.length (notifications fr1) <= 3
  /\ 1 <= List.length (notifications fr1).
Proof.
  intros images fr1. split; [reflexivity|].
  destruct (notifications_bounded (H := Memory.framework)
              images Memory.world0 fr1 eq_refl) as [Hle Hge].
  split; [exact Hle | apply Hge; discriminate].
Defined.

(** ** The upload view as a whole *)

Section ViewExtras.
Context `{!Framework}.

Lemma upload_valid_world images fr fr1 :
  import_images images fr = (inr tt, fr1) ->
  exists fr2,
    upload_valid images fr = (inr (Redirect "admin:interiors_interiors_changelist"), fr2)
    /\ db (world fr2) = db (world fr1)
    /\ messages (world fr2) = (messages (world fr1) ++ notifications fr1)%list
    /\ session (world fr2) = session (world fr1)
    /\ stdout (world fr2) = stdout (world fr1).
Proof.
  intros Hrun. unfold upload_valid, notifications. unfold_monad. rewrite Hrun.
  destruct (0 <? interiors_created fr1)%nat; simpl.
  - unfold messages_success. unfold_monad. rewrite messages_error_each. simpl.
    eexists. split; [reflexivity|]. simpl. rewrite <- List.app_assoc. auto.
  - rewrite messages_error_each. simpl. eexists. split; [reflexivity|]. auto.
Qed.

Lemma upload_valid_raises images fr e fr1 :
  import_images images fr = (inl e, fr1) -> upload_valid images fr = (inl e, fr1).
Proof. intros Hrun. unfold upload_valid. unfold_monad. rewrite Hrun. reflexivity. Qed.

Lemma bulk_upload_view_valid request w :
  method request = "POST" -> form_is_valid request = true ->
  bulk_upload_view request w
  = let '(r, fr) := upload_valid (getlist "images" (FILES request)) (initial_frame w) in
    (r, world fr).
Proof.
  intros Hpost Hvalid. unfold bulk_upload_view. rewrite Hvalid.
  destruct (decide (method request = "POST")); [reflexivity | contradiction].
Qed.

(** X11: a valid POST never shows the form again. Either every file of the
    batch is processed and the view redirects to the listing, the store
    holding the saves made in file order; or the first file has no derivable
    name and the view raises [UnboundLocalError], the world being as it was. *)
Theorem valid_post_redirects_or_raises request w :
  method request = "POST" ->
  form_is_valid request = true ->
  (exists w',
     bulk_upload_view request w
     = (inr (Redirect "admin:interiors_interiors_changelist"), w')
     /\ db w' = saved_in_order (getlist "images" (FILES request)) (db w)
     /\ forall image rest,
          getlist "images" (FILES request) = image :: rest ->
          exists filename, stem image = inr filename)
  \/ (bulk_upload_view request w
      = (inl (Exn "UnboundLocalError"
                "cannot access local variable 'name' where it is not associated with a value"),
         w)
      /\ exists image rest e,
           getlist "images" (FILES request) = image :: rest /\ stem image = inl e).
Proof.
  intros Hpost Hvalid. rewrite (bulk_upload_view_valid _ _ Hpost Hvalid).
  set (images := getlist "images" (FILES request)).
  destruct (import_images_first_file images w) as (Hraise & _ & Hdone).
  destruct images as [|image rest] eqn:Himages.
  - left. destruct Hdone as [fr1 Hrun]; [auto|].
    destruct (upload_valid_world _ _ _ Hrun) as (fr2 & -> & Hdb & _).
    exists (world fr2). split; [reflexivity|]. split; [|discriminate].
    rewrite Hdb. exact (import_images_db _ _ _ Hrun).
  - destruct (stem image) as [e|filename] eqn:Hstem.
    + right. rewrite (upload_valid_raises _ _ _ _ (Hraise image rest e eq_refl Hstem)).
      split; [destruct w; reflexivity | eauto].
    + left. destruct Hdone as [fr1 Hrun]; [right; eauto|].
      destruct (upload_valid_world _ _ _ Hrun) as (fr2 & -> & Hdb & _).
      exists (world fr2). split; [reflexivity|]. split.
      * rewrite Hdb. exact (import_images_db _ _ _ Hrun).
      * intros image' rest' [= <- <-]. eauto.
Qed.

(** The two branches that show the form. *)
Lemma bulk_upload_view_not_valid request w :
  (method request <> "POST" ->
   bulk_upload_view request w
   = (inr (Render upload_template UnboundForm "Bulk Upload Images"), w))
  /\ (method request = "POST" -> form_is_valid request = false ->
      bulk_upload_view request w
      = (inr (Render upload_template (BoundForm request) "Bulk Upload Images"), w)).
Proof.
  unfold bulk_upload_view. split.
  - intros Hm. destruct (decide (method request = "POST")); [contradiction | reflexivity].
  - intros Hm Hv. rewrite Hv.
    destruct (decide (method request = "POST")); [reflexivity | contradiction].
Qed.

(** X12: whatever the request and its outcome, the upload view leaves the
    session and standard output alone and only adds notifications after the
    ones already queued. *)
Theorem upload_view_footprint request w :
  session (bulk_upload_view request w).2 = session w
  /\ stdout (bulk_upload_view request w).2 = stdout w
  /\ exists new,
       messages (bulk_upload_view request w).2 = (messages w ++ new)%list.
Proof.
  destruct (decide (method request = "POST")) as [Hpost|Hother].
  - destruct (form_is_valid request) eqn:Hvalid.
    + rewrite (bulk_upload_view_valid _ _ Hpost Hvalid).
      set (images := getlist "images" (FILES request)).
      destruct (import_images images (initial_frame w)) as [[e|[]] fr1] eqn:Hrun.
      * rewrite (upload_valid_raises _ _ _ _ Hrun).
        destruct (import_images_world _ _ _ _ Hrun) as (Hm & Hs & Ho). simpl in *.
        split; [exact Hs|]. split; [exact Ho|]. exists []. rewrite app_nil_r. exact Hm.
      * destruct (upload_valid_world _ _ _ Hrun) as (fr2 & -> & _ & Hm2 & Hs2 & Ho2).
        destruct (import_images_world _ _ _ _ Hrun) as (Hm & Hs & Ho). simpl in *.
        split; [congruence|]. split; [congruence|].
        exists (notifications fr1). rewrite Hm2, Hm. reflexivity.
    + rewrite (proj2 (bulk_upload_view_not_valid request w) Hpost Hvalid). simpl.
      split; [reflexivity|]. split; [reflexivity|]. exists []. by rewrite app_nil_r.
  - rewrite (proj1 (bulk_upload_view_not_valid request w) Hother). simpl.
    split; [reflexivity|]. split; [reflexivity|]. exists []. by rewrite app_nil_r.
Qed.

End ViewExtras.

Lemma valid_post_redirects_or_raises_witness :
  let request :=
    Memory.request "POST" ∅ {[ "images" := [Memory.nameless; Memory.sofa] ]} in
  method request = "POST"
  /\ form_is_valid (Framework := Memory.framework) request = true
  /\ bulk_upload_view (H := Memory.framework) request Memory.world0
     = (inl (Exn "UnboundLocalError"
               "cannot access local variable 'name' where it is not associated with a value"),
        Memory.world0).
Proof.
  intros request. split; [reflexivity|]. split; [reflexivity|].
  destruct (valid_post_redirects_or_raises (H := Memory.framework)
              request Memory.world0 eq_refl eq_refl)
    as [(w' & _ & _ & Hfirst) | [Hraise _]].
  - destruct (Hfirst Memory.nameless [Memory.sofa] eq_refl) as [filename Hstem].
    discriminate Hstem.
  - exact Hraise.
Defined.

(** ** The preview column and the view mode, further *)

Section PreviewExtras.
Context `{!Framework}.

(** X13: the preview is the text "No Image" exactly for an object whose
    image is false; an object with a file never gets that text. *)
Theorem no_image_only_without_file obj :
  image_preview obj = inr "No Image"
  <-> FieldFile_bool (Interiors_image obj) = false.
Proof.
  unfold image_preview, FieldFile_bool, FieldFile_url, format_img, img_prefix.
  destruct (ff_name (Interiors_image obj)) as [file|]; simpl; [|tauto].
  destruct (String.eqb file ""); simpl; [tauto|].
  destruct (storage_url file); simpl; split; discriminate.
Qed.

(** X14: a [view] parameter is taken as it is, whatever its value: it is
    stored under the session's view-mode key, printed, and handed to the
    parent's listing in place of any [view_mode] the caller supplied; the
    other entries of the session and of the context, the store and the
    notifications are as they were. *)
Theorem view_parameter_stored_as_is request extra_context w v :
  GET request !! "view" = Some v ->
  exists context w',
    changelist_view request extra_context w
    = super_changelist_view request context w'
    /\ context !! "view_mode" = Some v
    /\ (forall key, key <> "view_mode" ->
                    context !! key = default ∅ extra_context !! key)
    /\ session w' !! "view_mode" = Some v
    /\ (forall key, key <> "view_mode" -> session w' !! key = session w !! key)
    /\ stdout w' = (stdout w ++ [("View mode: " ++ v)%string])%list
    /\ db w' = db w
    /\ messages w' = messages w.
Proof.
  intros Hget. eexists _, _. split; [apply (changelist_view_query _ _ _ _ Hget)|].
  simpl. split; [apply lookup_insert_eq|].
  split; [intros key Hkey; apply lookup_insert_ne; congruence|].
  split; [apply lookup_insert_eq|].
  split; [intros key Hkey; apply lookup_insert_ne; congruence|].
  auto.
Qed.

(** X15: a request with no [view] parameter writes nothing to the session,
    also when it falls back on "list": the parent's listing gets the stored
    view mode, or "list" when none is stored, and the world it is called in
    differs from the incoming one by the printed line only. *)
Theorem view_default_not_stored request extra_context w :
  GET request !! "view" = None ->
  exists context w',
    changelist_view request extra_context w
    = super_changelist_view request context w'
    /\ context !! "view_mode" = Some (default "list" (session w !! "view_mode"))
    /\ (forall key, key <> "view_mode" ->
                    context !! key = default ∅ extra_context !! key)
    /\ session w' = session w
    /\ stdout w'
       = (stdout w ++ [("View mode: " ++ default "list" (session w !! "view_mode"))%string])%list
    /\ db w' = db w
    /\ messages w' = messages w.
Proof.
  intros Hget. eexists _, _. split; [apply (changelist_view_session _ _ _ Hget)|].
  simpl. split; [apply lookup_insert_eq|].
  split; [intros key Hkey; apply lookup_insert_ne; congruence|].
  auto.
Qed.

(** X16: the view mode stored last wins: after a request with [view=v1] and
    a later one with [view=v2], a request with no [view] parameter is listed
    in mode [v2], provided the parent's listing leaves the view-mode key of
    the session alone. *)
Theorem view_mode_last_write_wins request1 request2 request3 c1 c2 c3 w v1 v2 :
  super_keeps_view_mode ->
  GET request1 !! "view" = Some v1 ->
  GET request2 !! "view" = Some v2 ->
  GET request3 !! "view" = None ->
  let w1 := (changelist_view request1 c1 w).2 in
  let w2 := (changelist_view request2 c2 w1).2 in
  changelist_view request3 c3 w2
  = super_changelist_view request3
      (<["view_mode" := v2]> (default ∅ c3))
      (print ("View mode: " ++ v2) w2).
Proof.
  intros Hsuper Hv1 Hv2 Hnone w1 w2.
  rewrite (changelist_view_session _ _ _ Hnone).
  assert (Hstored : session w2 !! "view_mode" = Some v2).
  { unfold w2. rewrite (changelist_view_query _ _ _ _ Hv2), Hsuper. simpl.
    apply lookup_insert_eq. }
  rewrite Hstored. reflexivity.
Qed.

End PreviewExtras.

Lemma no_image_only_without_file_witness :
  let obj := {| Memory.row_name := "Raw"; Memory.row_image := Memory.nameless |} in
  FieldFile_bool (Interiors_image (Framework := Memory.framework) obj) = false
  /\ image_preview (H := Memory.framework) obj = inr "No Image".
Proof.
  intros obj. split; [reflexivity|].
  exact (proj2 (no_image_only_without_file (H := Memory.framework) obj) eq_refl).
Defined.

Lemma view_parameter_stored_as_is_witness :
  let request := Memory.request "GET" {[ "view" := "<b>" ]} ∅ in
  GET request !! "view" = Some "<b>"
  /\ exists context w',
       changelist_view (H := Memory.framework) request
         (Some {[ "view_mode" := "list"; "title" := "Interiors" ]}) Memory.world0
       = super_changelist_view request context w'
       /\ context !! "view_mode" = Some "<b>"
       /\ session w' !! "view_mode" = Some "<b>".
Proof.
  intros request. split; [reflexivity|].
  destruct (view_parameter_stored_as_is (H := Memory.framework) request
              (Some {[ "view_mode" := "list"; "title" := "Interiors" ]})
              Memory.world0 "<b>" eq_refl)
    as (context & w' & Hview & Hcontext & _ & Hsession & _).
  exists context, w'. auto.
Defined.

Lemma view_default_not_stored_witness :
  let request := Memory.request "GET" ∅ ∅ in
  GET request !! "view" = None
  /\ exists context w',
       changelist_view (H := Memory.framework) request None Memory.world0
       = super_changelist_view request context w'
       /\ context !! "view_mode" = Some "list"
       /\ session w' = ∅.
Proof.
  intros request. split; [reflexivity|].
  destruct (view_default_not_stored (H := Memory.framework) request None
              Memory.world0 eq_refl)
    as (context & w' & Hview & Hcontext & _ & Hsession & _).
  exists context, w'. auto.
Defined.

Lemma view_mode_last_write_wins_witness :
  let request1 := Memory.request "GET" {[ "view" := "grid" ]} ∅ in
  let request2 := Memory.request "GET" {[ "view" := "list" ]} ∅ in
  let request3 := Memory.request "GET" ∅ ∅ in
  let w1 := (changelist_view (H := Memory.framework) request1 None Memory.world0).2 in
  let w2 := (changelist_view (H := Memory.framework) request2 None w1).2 in
  GET request1 !! "view" = Some "grid"
  /\ GET request2 !! "view" = Some "list"
  /\ (changelist_view (H := Memory.framework) request3 None w2).1
     = inr (HttpResponse "list").
Proof.
  intros request1 request2 request3 w1 w2.
  split; [reflexivity|]. split; [reflexivity|].
  assert (Hkeeps : super_keeps_view_mode (H := Memory.framework)).
  { intros request context w. reflexivity. }
  unfold w2, w1.
  rewrite (view_mode_last_write_wins (H := Memory.framework)
             request1 request2 request3 None None None Memory.world0 "grid" "list"
             Hkeeps eq_refl eq_refl eq_refl).
  reflexivity.
Defined.

(** ** The multiple-file field *)

Section CleanProperties.
Context {Data Initial Cleaned : Type}.
Variable single_file_clean : Data -> Initial -> exn + Cleaned.

Lemma clean_each_ok items initial cs :
  clean_each single_file_clean items initial = inr cs
  <-> Forall2 (fun d c => single_file_clean d initial = inr c) items cs.
Proof.
  revert cs. induction items as [|d items IH]; intros cs; simpl.
  - split.
    + intros [= <-]. constructor.
    + intros Hall. inversion Hall. reflexivity.
  - destruct (single_file_clean d initial) as [e|c] eqn:Hd.
    + split; [discriminate|]. intros Hall. inversion Hall; subst. congruence.
    + destruct (clean_each single_file_clean items initial) as [e|cs'] eqn:Hrest.
      * split; [discriminate|]. intros Hall. inversion Hall as [|? c' ? cs'' Hc Hcs]; subst.
        apply IH in Hcs. discriminate.
      * split.
        -- intros [= <-]. constructor; [exact Hd | apply IH; reflexivity].
        -- intros Hall. inversion Hall as [|? c' ? cs'' Hc Hcs]; subst.
           apply IH in Hcs. congruence.
Qed.

Lemma clean_each_raises items initial e :
  clean_each single_file_clean items initial = inl e
  <-> exists pre d post,
        items = (pre ++ d :: post)%list
        /\ Forall (fun x => exists c, single_file_clean x initial = inr c) pre
        /\ single_file_clean d initial = inl e.
Proof.
  induction items as [|d items IH]; simpl.
  - split; [discriminate|]. intros (pre & x & post & Heq & _). destruct pre; discriminate.
  - destruct (single_file_clean d initial) as [e0|c] eqn:Hd.
    + split.
      * intros [= <-]. exists [], d, items. auto.
      * intros (pre & x & post & Heq & Hpre & Hx). destruct pre as [|y pre].
        -- simpl in Heq. injection Heq as <- <-. congruence.
        -- simpl in Heq. injection Heq as <- ->.
           inversion Hpre as [|? ? [c Hc] _]; subst. congruence.
    + destruct (clean_each single_file_clean items initial) as [e0|cs] eqn:Hrest.
      * split.
        -- intros [= <-]. destruct (proj1 IH eq_refl) as (pre & x & post & -> & Hpre & Hx).
           exists (d :: pre), x, post. split; [reflexivity|]. split; [|exact Hx].
           constructor; eauto.
        -- intros (pre & x & post & Heq & Hpre & Hx). destruct pre as [|y pre].
           ++ simpl in Heq. injection Heq as <- <-. congruence.
           ++ simpl in Heq. injection Heq as <- ->.
              inversion Hpre; subst. f_equal.
              assert (Hinl : @inl exn (list Cleaned) e0 = inl e)
                by (apply IH; exists pre, x, post; auto).
              congruence.
      * split; [discriminate|].
        intros (pre & x & post & Heq & Hpre & Hx). destruct pre as [|y pre].
        -- simpl in Heq. injection Heq as <- <-. congruence.
        -- simpl in Heq. injection Heq as <- ->. inversion Hpre; subst.
           assert (Hinl : @inr exn (list Cleaned) cs = inl e)
             by (apply IH; exists pre, x, post; auto).
           discriminate.
Qed.

(** X17: cleaning a list of files succeeds exactly when the parent's check
    accepts every element, and then returns the cleaned elements as a list in
    the same order; an empty list is therefore accepted without the parent's
    check being consulted. *)
Theorem clean_list_succeeds items initial result :
  clean single_file_clean (DataSeq items) initial = inr result
  <-> exists cs,
        result = CleanedSeq cs
        /\ Forall2 (fun d c => single_file_clean d initial = inr c) items cs.
Proof.
  simpl. destruct (clean_each single_file_clean items initial) as [e|cs] eqn:Hrun.
  - split; [discriminate|]. intros (cs & _ & Hall).
    apply clean_each_ok in Hall. congruence.
  - split.
    + intros [= <-]. exists cs. split; [reflexivity | apply clean_each_ok, Hrun].
    + intros (cs' & -> & Hall). apply clean_each_ok in Hall. congruence.
Qed.

(** X18: cleaning a list of files raises exactly when the parent's check
    refuses some element, and the exception is the one raised for the first
    refused element; the elements after it are not checked. *)
Theorem clean_list_raises_first items initial e :
  clean single_file_clean (DataSeq items) initial = inl e
  <-> exists pre d post,
        items = (pre ++ d :: post)%list
        /\ Forall (fun x => exists c, single_file_clean x initial = inr c) pre
        /\ single_file_clean d initial = inl e.
Proof.
  rewrite <- clean_each_raises. simpl.
  destruct (clean_each single_file_clean items initial); split; congruence.
Qed.

End CleanProperties.

Lemma clean_list_succeeds_witness :
  clean refuse_all (DataSeq []) tt = inr (CleanedSeq [])
  /\ clean accept_payload (DataSeq [Some Memory.sofa; Some Memory.living_room]) tt
     = inr (CleanedSeq [Memory.sofa; Memory.living_room]).
Proof.
  split.
  - apply (proj2 (clean_list_succeeds refuse_all [] tt (CleanedSeq []))).
    exists []. split; [reflexivity | constructor].
  - apply (proj2 (clean_list_succeeds accept_payload
                    [Some Memory.sofa; Some Memory.living_room] tt
                    (CleanedSeq [Memory.sofa; Memory.living_room]))).
    exists [Memory.sofa; Memory.living_room]. split; [reflexivity|].
    repeat constructor.
Defined.

Lemma clean_list_raises_first_witness :
  clean accept_payload
    (DataSeq [Some Memory.sofa; Some Memory.empty_payload; None]) tt
  = inl (Exn "ValidationError" "The submitted file is empty.").
Proof.
  apply (proj2 (clean_list_raises_first accept_payload
                  [Some Memory.sofa; Some Memory.empty_payload; None] tt _)).
  exists [Some Memory.sofa], (Some Memory.empty_payload), [None].
  split; [reflexivity|]. split; [|reflexivity].
  constructor; [|constructor]. exists Memory.sofa. reflexivity.
Defined.

(** ** Missing upload field *)

(** X19: a valid POST whose files hold no [images] entry at all is handled
    as an empty batch: nothing is saved or queued and the view redirects. *)
Theorem missing_images_key_is_empty_batch `{!Framework} request w :
  method request = "POST" ->
  form_is_valid request = true ->
  FILES request !! "images" = None ->
  getlist "images" (FILES request) = []
  /\ bulk_upload_view request w
     = (inr (Redirect "admin:interiors_interiors_changelist"), w).
Proof.
  intros Hpost Hvalid Hfiles.
  assert (Hlist : getlist "images" (FILES request) = []).
  { unfold getlist. rewrite Hfiles. reflexivity. }
  split; [exact Hlist|].
  rewrite (bulk_upload_view_valid _ _ Hpost Hvalid), Hlist. destruct w. reflexivity.
Qed.

Lemma missing_images_key_is_empty_batch_witness :
  let request := Memory.request "POST" ∅ {[ "documents" := [Memory.sofa] ]} in
  FILES request !! "images" = None
  /\ bulk_upload_view (H := Memory.framework) request Memory.world0
     = (inr (Redirect "admin:interiors_interiors_changelist"), Memory.world0).
Proof.
  intros request. split; [reflexivity|].
  exact (proj2 (missing_images_key_is_empty_batch (H := Memory.framework)
                  request Memory.world0 eq_refl eq_refl eq_refl)).
Defined.
